(** * terraform-provider-capellaextras: the index-build action and its API client

    A shallow embedding of
    - [api/client]   (the HTTP client: authenticators, [apiError], [Client.Do]),
    - [api/indexes]  ([GetIndexBuildStatus], [BuildDeferredIndexes]),
    - [internal/actions] ([BuildIndexAction.Invoke]),
    followed by the properties of the build workflow.

    Go values are rendered as follows.  A [string] is a [string]; an [int] is a
    [Z]; a slice is a [list]; a [map[string]T] is a [gmap string T]; a nilable
    pointer or interface is an [option]; a pair of results [(v, err)] is a
    pair.  In-place updates through a pointer return the updated value. *)

From Stdlib Require Import String Ascii ZArith List DecimalString Lia.
From stdpp Require Import base gmap strings list.

Open Scope string_scope.
Open Scope list_scope.
Open Scope Z_scope.

(** ** Package [fmt]: the verbs this repository uses

    A format string is read once into directives; the directives fix the
    number and the types of the operands, so that a call site is written as
    in Go: [Sprintf "Index: %s, Status: %s" name status]. *)
Module fmt.

(** Operand of [%v]: the two kinds of value this repository prints with it. *)
Inductive any : Type :=
| str (s : string)
| strs (l : list string).

(** [%v] prints a string as it is and a [[]string] as [[a b c]]. *)
Definition print_any (a : any) : string :=
  match a with
  | str s => s
  | strs l => "[" +:+ String.concat " " l +:+ "]"
  end.

(** [%d] prints an [int] in decimal, with a leading [-] when negative. *)
Definition print_int (z : Z) : string := NilZero.string_of_int (Z.to_int z).

Inductive directive : Type :=
| Lit (c : ascii)     (* a character copied to the output *)
| Verb_s              (* %s *)
| Verb_d              (* %d *)
| Verb_v              (* %v *)
| Verb_w              (* %w, accepted by Errorf only *)
| Verb_other.         (* any other verb: outside this model *)

(** A [%] that ends the format has no verb: Go prints [%!(NOVERB)]. *)
Fixpoint parse (format : string) : list directive :=
  match format with
  | EmptyString => []
  | String "%" EmptyString => map Lit (list_ascii_of_string "%!(NOVERB)")
  | String "%" (String c rest) =>
      (match c with
       | "s" => Verb_s
       | "d" => Verb_d
       | "v" => Verb_v
       | "w" => Verb_w
       | "%" => Lit "%"
       | _ => Verb_other
       end)%char :: parse rest
  | String c rest => Lit c :: parse rest
  end.

Section Engine.
(** [W] is the type of the operand of [%w]; [R] the type of the result. *)
Variables (W R : Type) (Error : W -> string).

Fixpoint operands (ds : list directive) : Type :=
  match ds with
  | [] => R
  | Lit _ :: ds' => operands ds'
  | Verb_s :: ds' => string -> operands ds'
  | Verb_d :: ds' => Z -> operands ds'
  | Verb_v :: ds' => any -> operands ds'
  | Verb_w :: ds' => W -> operands ds'
  | Verb_other :: ds' => Empty_set -> operands ds'
  end.

(** [k] receives the text that follows and the operand of the last [%w]
    seen so far; [w] is that operand for the text printed so far. *)
Fixpoint run (ds : list directive) (w : option W)
    (k : string -> option W -> R) {struct ds} : operands ds :=
  match ds return operands ds with
  | [] => k "" w
  | Lit c :: ds' => run ds' w (fun s => k (String c s))
  | Verb_s :: ds' => fun a => run ds' w (fun s => k (a +:+ s))
  | Verb_d :: ds' => fun z => run ds' w (fun s => k (print_int z +:+ s))
  | Verb_v :: ds' => fun a => run ds' w (fun s => k (print_any a +:+ s))
  | Verb_w :: ds' => fun e => run ds' (Some e) (fun s => k (Error e +:+ s))
  | Verb_other :: ds' => fun a => match a with end
  end.
End Engine.

(** [fmt.Sprintf]: [%w] is not a verb of Sprintf, so its operand type is
    empty. *)
Definition Sprintf (format : string)
  : operands Empty_set string (parse format) :=
  run Empty_set string (fun e => match e with end)
      (parse format) None (fun s _ => s).

End fmt.

(** ** Package [strings] *)

(** [strings.Join(elems, sep)]: nothing for no element, the element for one,
    and otherwise the first element followed by [sep] and each further one. *)
Definition strings_Join (elems : list string) (sep : string) : string :=
  match elems with
  | [] => ""
  | first :: rest => fold_left (fun b s => b +:+ sep +:+ s) rest first
  end.

(** ** Package [api/client] *)
Module client.

(** [apiError] models a common API error payload.  [Detail] ([any] in Go)
    is kept as the raw JSON text, absent when the field is. *)
Record apiError : Type := {
  Code : string;
  Message : string;
  Detail : option string;
}.

Definition apiError_Error (e : apiError) : string :=
  if ((Code e =? "") && (Message e =? ""))%string then "capella api error"
  else if (Code e =? "")%string then Message e
  else if (Message e =? "")%string then Code e
  else fmt.Sprintf "%s: %s" (Code e) (Message e).

(** The values of Go's [error] interface that this package produces or
    passes on: a plain message (made by [fmt.Errorf] without [%w], or
    returned by a library), an [apiError], and the wrapper that
    [fmt.Errorf] makes for [%w]. *)
Inductive error : Type :=
| errorString (s : string)
| apiErr (e : apiError)
| wrapError (msg : string) (err : error).

Definition Error (e : error) : string :=
  match e with
  | errorString s => s
  | apiErr ae => apiError_Error ae
  | wrapError msg _ => msg
  end.

Definition Unwrap (e : error) : option error :=
  match e with
  | wrapError _ err => Some err
  | _ => None
  end.

(** [fmt.Errorf]: the text is that of Sprintf with [%w] printing the
    operand's [Error()]; the result wraps the operand of [%w] if there is
    one. *)
Definition Errorf (format : string)
  : fmt.operands error error (fmt.parse format) :=
  fmt.run error error Error (fmt.parse format) None
    (fun s w => match w with
                | Some err => wrapError s err
                | None => errorString s
                end).

(** [http.Header]: a header name maps to its values. *)
Abbreviation http_Header := (gmap string (list string)).

(** [Header.Set] replaces the values of [key] by the single [value].  Go
    first brings [key] into canonical MIME form; every name set by this
    package ("Authorization", "Accept", "Content-Type", "User-Agent") is
    already in that form. *)
Definition Header_Set (h : http_Header) (key value : string) : http_Header :=
  <[key := [value]]> h.

(** [Header.Get]: the first value of [key], or the empty string. *)
Definition Header_Get (h : http_Header) (key : string) : string :=
  match h !! key with
  | Some (v :: _) => v
  | _ => ""
  end.

Record Request : Type := {
  Method : string;
  URL : string;
  Header : http_Header;
  Body : option string;
}.

Definition set_header (req : Request) (key value : string) : Request :=
  {| Method := Method req; URL := URL req;
     Header := Header_Set (Header req) key value; Body := Body req |}.

Record Response : Type := {
  StatusCode : Z;
  RespBody : string;
}.

(** [Authenticator] applies authentication to an outgoing request; [Apply]
    returns the request as it has left it and its error. *)
Record Authenticator : Type := {
  Apply : Request -> Request * option error;
}.

(** [BearerTokenAuth] adds an [Authorization: Bearer <token>] header. *)
Record BearerTokenAuth : Type := { Token : string }.

Definition BearerTokenAuth_Apply (a : BearerTokenAuth) (req : Request)
  : Request * option error :=
  if (Token a =? "")%string then (req, None)
  else (set_header req "Authorization" ("Bearer " +:+ Token a), None).

Definition bearer (a : BearerTokenAuth) : Authenticator :=
  {| Apply := BearerTokenAuth_Apply a |}.

(** [Client].  [HTTP] stands for the retrying transport: its [Do] either
    fails or yields the final response. *)
Record Client : Type := {
  BaseURL : option string;
  HTTP : Request -> error + Response;
  Auth : option Authenticator;
  UserAgent : string;
  OrganizationID : string;
  ProjectID : string;
}.

(** What [json.Decoder.Decode] reports for a response body. *)
Inductive Decoded (O : Type) : Type :=
| DecodeEOF
| DecodeFailed (err : error)
| DecodeOk (v : O).
Arguments DecodeEOF {O}.
Arguments DecodeFailed {O} err.
Arguments DecodeOk {O} v.

Section Do.
(** The library calls of [Do], taken as given:
    - [buildURL base p query]: the "Build URL" block ([url.Parse] of an
      absolute [p], else [path.Clean] and [ResolveReference], then the
      encoded query), which fails when an absolute [p] does not parse;
    - [json_Encode]: the JSON encoder on the request body;
    - [NewRequest]: [retryablehttp.NewRequest];
    - [json_Unmarshal_apiError]: [json.Unmarshal] into an [apiError],
      [None] when it reports an error;
    - [json_Decode]: the strict decoder on the response body. *)
Context {B O : Type}.
Variable buildURL : string -> string -> gmap string string -> error + string.
Variable json_Encode : B -> error + string.
Variable NewRequest : string -> string -> option string -> error + Request.
Variable json_Unmarshal_apiError : string -> option apiError.
Variable json_Decode : string -> Decoded O.

(** Lines 170-226 of [Do]: the request that is handed to the transport. *)
Definition prepare (c : Client) (method p : string)
    (query : gmap string string) (body : option B) : error + Request :=
  match BaseURL c with
  | None => inl (Errorf "client BaseURL not configured")
  | Some base =>
    match buildURL base p query with
    | inl err => inl err
    | inr u =>
      match
        match body with
        | None => inr None
        | Some b => match json_Encode b with
                    | inl err => inl err
                    | inr buf => inr (Some buf)
                    end
        end
      with
      | inl err => inl err
      | inr reqBody =>
        match NewRequest method u reqBody with
        | inl err => inl err
        | inr req =>
          let req := match body with
                     | Some _ => set_header req "Content-Type" "application/json"
                     | None => req
                     end in
          let req := set_header req "Accept" "application/json" in
          let req := if (UserAgent c =? "")%string then req
                     else set_header req "User-Agent" (UserAgent c) in
          match Auth c with
          | None => inr req
          | Some a => match Apply a req with
                      | (_, Some err) => inl err
                      | (req', None) => inr req'
                      end
          end
        end
      end
    end
  end.

(** Lines 242-265 of [Do]: what is made of the response.  The third
    component is the value decoded into [out], when there is one. *)
Definition receive (resp : Response) (out : bool)
  : option Response * option error * option O :=
  if (StatusCode resp <? 200) || (StatusCode resp >=? 300) then
    let b := RespBody resp in
    match json_Unmarshal_apiError b with
    | Some ae =>
        if negb (Code ae =? "")%string || negb (Message ae =? "")%string
        then (Some resp,
              Some (Errorf "%w (status %d)" (apiErr ae) (StatusCode resp)),
              None)
        else (Some resp,
              Some (Errorf "capella api request failed: status %d, body: %s"
                           (StatusCode resp) b),
              None)
    | None =>
        (Some resp,
         Some (Errorf "capella api request failed: status %d, body: %s"
                      (StatusCode resp) b),
         None)
    end
  else if out then
    match json_Decode (RespBody resp) with
    | DecodeEOF => (Some resp, None, None)
    | DecodeFailed err => (Some resp, Some err, None)
    | DecodeOk v => (Some resp, None, Some v)
    end
  else (Some resp, None, None).

(** [Client.Do]: performs an HTTP request against the Capella API. *)
Definition Do (c : Client) (method p : string)
    (query : gmap string string) (body : option B) (out : bool)
  : option Response * option error * option O :=
  match prepare c method p query body with
  | inl err => (None, Some err, None)
  | inr req =>
    match HTTP c req with
    | inl err => (None, Some err, None)
    | inr resp => receive resp out
    end
  end.

Definition Get (c : Client) (p : string) (query : gmap string string)
    (out : bool) :=
  Do c "GET" p query None out.

Definition Post (c : Client) (p : string) (body : option B) (out : bool) :=
  Do c "POST" p ∅ body out.

Definition Put (c : Client) (p : string) (body : option B) (out : bool) :=
  Do c "PUT" p ∅ body out.

Definition Patch (c : Client) (p : string) (body : option B) (out : bool) :=
  Do c "PATCH" p ∅ body out.

Definition Delete (c : Client) (p : string) :=
  Do c "DELETE" p ∅ None false.
End Do.

(** *** Key and secret authentication *)

Section Canonical.
(** [textproto.CanonicalMIMEHeaderKey], taken as given: [Header.Set] and
    [Header.Get] use the canonical form of the name they are given. *)
Variable CanonicalMIMEHeaderKey : string -> string.

Definition Header_Set_canonical (h : http_Header) (key value : string)
  : http_Header :=
  <[CanonicalMIMEHeaderKey key := [value]]> h.

Definition Header_Get_canonical (h : http_Header) (key : string) : string :=
  match h !! CanonicalMIMEHeaderKey key with
  | Some (v :: _) => v
  | _ => ""
  end.

Definition set_header_canonical (req : Request) (key value : string) : Request :=
  {| Method := Method req; URL := URL req;
     Header := Header_Set_canonical (Header req) key value; Body := Body req |}.

(** [APIKeySecretAuth] adds API key headers for Capella if using key/secret
    credentials. *)
Record APIKeySecretAuth : Type := {
  Key : string;
  Secret : string;
  HeaderKeyName : string;
  HeaderSecretName : string;
}.

Definition keyHeader (a : APIKeySecretAuth) : string :=
  if (HeaderKeyName a =? "")%string then "X-Client-Id" else HeaderKeyName a.

Definition secretHeader (a : APIKeySecretAuth) : string :=
  if (HeaderSecretName a =? "")%string then "X-Client-Secret"
  else HeaderSecretName a.

Definition APIKeySecretAuth_Apply (a : APIKeySecretAuth) (req : Request)
  : Request * option error :=
  if ((Key a =? "") && (Secret a =? ""))%string then (req, None)
  else
    let req := if (Key a =? "")%string then req
               else set_header_canonical req (keyHeader a) (Key a) in
    let req := if (Secret a =? "")%string then req
               else set_header_canonical req (secretHeader a) (Secret a) in
    (req, None).

Definition keySecret (a : APIKeySecretAuth) : Authenticator :=
  {| Apply := APIKeySecretAuth_Apply a |}.
End Canonical.

(** *** Construction of a client *)

(** [DefaultBaseURL] is the default Capella API endpoint for v4. *)
Definition DefaultBaseURL : string := "https://cloudapi.cloud.couchbase.com".

(** [Option] mutates client options during construction. *)
Abbreviation Option := (Client -> Client).

Definition set_BaseURL (c : Client) (u : option string) : Client :=
  {| BaseURL := u; HTTP := HTTP c; Auth := Auth c; UserAgent := UserAgent c;
     OrganizationID := OrganizationID c; ProjectID := ProjectID c |}.

Section Construction.
(** [url.Parse], taken as given: the URL it makes of a text, or its error. *)
Variable url_Parse : string -> error + string.
(** [retryablehttp.NewClient()] with the settings of [NewClient] (at most 4
    retries, waits from 500ms to 4s, default backoff, no logger), as the
    transport it is. *)
Variable defaultHTTP : Request -> error + Response.

(** [WithBaseURL] sets the API base URL. *)
Definition WithBaseURL (raw : string) : Option :=
  fun c =>
    if (raw =? "")%string then c
    else
      let raw := if String.prefix "http" raw then raw else "https://" +:+ raw in
      match url_Parse raw with
      | inr u => set_BaseURL c (Some u)
      | inl _ => c
      end.

(** [WithHTTPClient] allows providing a custom [retryablehttp.Client]. *)
Definition WithHTTPClient (rhc : Request -> error + Response) : Option :=
  fun c =>
    {| BaseURL := BaseURL c; HTTP := rhc; Auth := Auth c;
       UserAgent := UserAgent c; OrganizationID := OrganizationID c;
       ProjectID := ProjectID c |}.

(** [WithAuthenticator] sets the request authenticator. *)
Definition WithAuthenticator (a : Authenticator) : Option :=
  fun c =>
    {| BaseURL := BaseURL c; HTTP := HTTP c; Auth := Some a;
       UserAgent := UserAgent c; OrganizationID := OrganizationID c;
       ProjectID := ProjectID c |}.

(** [WithUserAgent] sets a custom User-Agent header. *)
Definition WithUserAgent (ua : string) : Option :=
  fun c =>
    {| BaseURL := BaseURL c; HTTP := HTTP c; Auth := Auth c;
       UserAgent := ua; OrganizationID := OrganizationID c;
       ProjectID := ProjectID c |}.

(** [WithOrgID] sets a default organization ID on the client. *)
Definition WithOrgID (id : string) : Option :=
  fun c =>
    {| BaseURL := BaseURL c; HTTP := HTTP c; Auth := Auth c;
       UserAgent := UserAgent c; OrganizationID := id;
       ProjectID := ProjectID c |}.

(** [WithProjectID] sets a default project ID on the client. *)
Definition WithProjectID (id : string) : Option :=
  fun c =>
    {| BaseURL := BaseURL c; HTTP := HTTP c; Auth := Auth c;
       UserAgent := UserAgent c; OrganizationID := OrganizationID c;
       ProjectID := id |}.

(** The client of [NewClient] before the options are applied. *)
Definition defaultClient : Client :=
  {| BaseURL := match url_Parse DefaultBaseURL with
                | inr base => Some base
                | inl _ => None
                end;
     HTTP := defaultHTTP;
     Auth := None;
     UserAgent := "capellaextras-terraform-provider/unknown (+https://github.com/cdsre/terraform-provider-capellaextras)";
     OrganizationID := "";
     ProjectID := "" |}.

(** [NewClient] creates a new Capella v4 API client: the options are
    applied in their order. *)
Definition NewClient (opts : list Option) : Client :=
  fold_left (fun c o => o c) opts defaultClient.

(** The options this package provides. *)
Inductive provided : Option -> Prop :=
| provided_WithBaseURL (raw : string) : provided (WithBaseURL raw)
| provided_WithHTTPClient rhc : provided (WithHTTPClient rhc)
| provided_WithAuthenticator a : provided (WithAuthenticator a)
| provided_WithUserAgent ua : provided (WithUserAgent ua)
| provided_WithOrgID id : provided (WithOrgID id)
| provided_WithProjectID id : provided (WithProjectID id).
End Construction.

End client.

(** ** Package [api/indexes] *)
Module indexes.
Import client.

Record IndexBuildStatusResponse : Type := { Status : string }.

Record IndexBuildStatusRequest : Type := {
  OrganizationId : string;
  ProjectId : string;
  ClusterId : string;
  Bucket : string;
  IndexName : string;
  Scope : string;
  Collection : string;
}.

Record IndexBuildRequest : Type := {
  bOrganizationId : string;
  bProjectId : string;
  bClusterId : string;
  bBucket : string;
  IndexNames : list string;
  bScope : string;
  bCollection : string;
}.

Record IndexDefinition : Type := { Definition_ : string }.

Record IndexBuildResponse : Type := { Error_ : option string }.

(** What [c.Get(ctx, path, params, &res)] leaves in [res] and its error,
    and the same for [c.Post(ctx, path, def, &res)]. *)
Abbreviation StatusReply := (option IndexBuildStatusResponse * option error)%type.
Abbreviation BuildReply := (option IndexBuildResponse * option error)%type.

(** What an invocation does that can be seen from outside, in the order in
    which it does it: the calls on the client with their outcome, and the
    progress messages sent back to Terraform. *)
Inductive Event : Type :=
| EvGet (path : string) (query : gmap string string) (reply : StatusReply)
| EvPost (path : string) (body : IndexDefinition) (reply : BuildReply)
| EvProgress (Message : string).

(** The client as this package uses it: the outcome of a [Get] or a [Post],
    which may depend on all that has happened so far (a status changes
    between two polls, a call fails the second time, ...). *)
Record Service : Type := {
  on_Get : list Event -> string -> gmap string string -> StatusReply;
  on_Post : list Event -> string -> IndexDefinition -> BuildReply;
}.

(** A [client.Client] with its decoders is such a service: [res] is a nil
    pointer before the call, and decoding sets it (to nil again for a JSON
    [null]). *)
Definition of_client
    (buildURL : string -> string -> gmap string string -> error + string)
    (json_Encode : IndexDefinition -> error + string)
    (NewRequest : string -> string -> option string -> error + Request)
    (json_Unmarshal_apiError : string -> option apiError)
    (decode_status : string -> Decoded (option IndexBuildStatusResponse))
    (decode_build : string -> Decoded (option IndexBuildResponse))
    (c : Client) : Service :=
  {| on_Get := fun _ p query =>
       let '(_, err, out) :=
         client.Get buildURL json_Encode NewRequest json_Unmarshal_apiError
                    decode_status c p query true in
       (mjoin out, err);
     on_Post := fun _ p def =>
       let '(_, err, out) :=
         client.Post buildURL json_Encode NewRequest json_Unmarshal_apiError
                     decode_build c p (Some def) true in
       (mjoin out, err) |}.

Section Calls.
(** [url.PathEscape], taken as given. *)
Variable PathEscape : string -> string.
Variable c : Service.

Definition status_path (req : IndexBuildStatusRequest) : string :=
  fmt.Sprintf
    "v4/organizations/%s/projects/%s/clusters/%s/queryService/indexBuildStatus/%s"
    (OrganizationId req) (ProjectId req) (ClusterId req)
    (PathEscape (IndexName req)).

Definition status_params (req : IndexBuildStatusRequest)
  : gmap string string :=
  <["bucket" := Bucket req]>
    (<["scope" := Scope req]>
       (<["collection" := Collection req]> ∅)).

Definition GetIndexBuildStatus (req : IndexBuildStatusRequest)
    (h : list Event) : StatusReply * list Event :=
  let path := status_path req in
  let params := status_params req in
  let reply := on_Get c h path params in
  (reply, h ++ [EvGet path params reply]).

Definition build_definition (req : IndexBuildRequest) : IndexDefinition :=
  {| Definition_ :=
       fmt.Sprintf "BUILD INDEX ON `%s`.`%s`.`%s`(%s)"
         (bBucket req) (bScope req) (bCollection req)
         (strings_Join (IndexNames req) ", ") |}.

Definition build_path (req : IndexBuildRequest) : string :=
  fmt.Sprintf "v4/organizations/%s/projects/%s/clusters/%s/queryService/indexes"
    (bOrganizationId req) (bProjectId req) (bClusterId req).

Definition BuildDeferredIndexes (req : IndexBuildRequest)
    (h : list Event) : BuildReply * list Event :=
  let def := build_definition req in
  let path := build_path req in
  let reply := on_Post c h path def in
  (reply, h ++ [EvPost path def reply]).

(** Modelled from the spec: [WaitForScheduledIndexCreation] is called by
    the action but its file is not among the sources.  The spec asks for
    "a blocking wait operation that re-polls status until it leaves the
    scheduled state", which "must terminate in bounded time or surface a
    timeout/error" and "must eventually return a terminal status or an
    error".  Here: at most [polls] status queries for the same request;
    the first reply that fails or whose status is no longer scheduled is
    returned; a reply without error and without a status is an error; so
    is running out of polls. *)
Fixpoint WaitForScheduledIndexCreation (polls : nat)
    (req : IndexBuildStatusRequest) (h : list Event)
  : StatusReply * list Event :=
  match polls with
  | O => ((None, Some (errorString "timed out waiting for scheduled index creation")), h)
  | S polls' =>
    let '((res, err), h') := GetIndexBuildStatus req h in
    match err, res with
    | Some e, _ => ((res, Some e), h')
    | None, None => ((None, Some (errorString "index build status missing")), h')
    | None, Some r =>
        if (Status r =? "Scheduled for Creation")%string
        then WaitForScheduledIndexCreation polls' req h'
        else ((Some r, None), h')
    end
  end.
End Calls.

End indexes.

(** ** The Terraform plugin framework, as far as [Invoke] uses it *)
Module framework.

(** [types.String]: null, unknown, or a known value. *)
Inductive String_ : Type :=
| StringNull
| StringUnknown
| StringValue (s : string).

Definition IsNull (v : String_) : bool :=
  match v with StringNull => true | _ => false end.

(** [ValueString] is the empty string for a null or unknown value. *)
Definition ValueString (v : String_) : string :=
  match v with StringValue s => s | _ => "" end.

Inductive Severity : Type := SeverityError | SeverityWarning.

Record Diagnostic : Type := {
  severity : Severity;
  Summary : string;
  Detail_ : string;
}.

#[global] Instance Severity_eq_dec : EqDecision Severity.
Proof. solve_decision. Defined.

#[global] Instance Diagnostic_eq_dec : EqDecision Diagnostic.
Proof. solve_decision. Defined.

Abbreviation Diagnostics := (list Diagnostic).

Definition is_error (d : Diagnostic) : bool :=
  match severity d with SeverityError => true | SeverityWarning => false end.

Definition HasError (ds : Diagnostics) : bool := existsb is_error ds.

(** [Diagnostics.Append] adds the diagnostics that are not yet there. *)
Definition Append (ds : Diagnostics) (new : Diagnostics) : Diagnostics :=
  fold_left (fun acc d => if decide (d ∈ acc) then acc else acc ++ [d]) new ds.

Definition AddError (ds : Diagnostics) (summary detail : string)
  : Diagnostics :=
  Append ds [{| severity := SeverityError; Summary := summary; Detail_ := detail |}].

(** [types.List], seen through [ElementsAs(ctx, &names, false)] into a
    [[]string]: the diagnostics of the conversion and the slice it leaves. *)
Record List_ : Type := { ElementsAs : Diagnostics * list string }.

End framework.

(** ** Package [internal/actions] *)
Module actions.
Import client indexes framework.

(** [BuildIndexActionModel] describes the action data model. *)
Record BuildIndexActionModel : Type := {
  mOrganizationId : String_;
  mProjectId : String_;
  mClusterId : String_;
  BucketName : String_;
  mIndexNames : List_;
  ScopeName : String_;
  CollectionName : String_;
}.

(** [req.Config], seen through [Get(ctx, &data)]: its diagnostics and the
    model it leaves in [data]. *)
Record InvokeRequest : Type := {
  Config_Get : Diagnostics * BuildIndexActionModel;
}.

(** The running invocation: everything done so far, and
    [resp.Diagnostics]. *)
Record State : Type := {
  events : list Event;
  Diagnostics_ : Diagnostics;
}.

Definition SendProgress (st : State) (Message : string) : State :=
  {| events := events st ++ [EvProgress Message];
     Diagnostics_ := Diagnostics_ st |}.

Definition Diagnostics_Append (st : State) (ds : Diagnostics) : State :=
  {| events := events st; Diagnostics_ := Append (Diagnostics_ st) ds |}.

Definition Diagnostics_AddError (st : State) (summary detail : string) : State :=
  {| events := events st;
     Diagnostics_ := AddError (Diagnostics_ st) summary detail |}.

(** A call of package [indexes], run on the events of the state. *)
Definition call {A : Type} (f : list Event -> A * list Event) (st : State)
  : A * State :=
  let '(a, h) := f (events st) in
  (a, {| events := h; Diagnostics_ := Diagnostics_ st |}).

(** How a piece of [Invoke] ends: it goes on (with the value it made), the
    function returns, or a nil pointer is dereferenced. *)
Inductive Flow (A : Type) : Type :=
| Next (a : A)
| Return
| Panic.
Arguments Next {A} a.
Arguments Return {A}.
Arguments Panic {A}.

Definition LF : string := String "010" "".

(** Lines 113-124: an optional attribute that is null takes the default
    value, any other its [ValueString]. *)
Definition or_default (v : String_) : string :=
  if IsNull v then "_default" else ValueString v.

Section Invoke.
Variable PathEscape : string -> string.
(** [bi.Client]. *)
Variable bi : Service.
(** The bound on the polls of one wait (see
    [WaitForScheduledIndexCreation]). *)
Variable polls : nat.

(** The request [ibReq] of one iteration (lines 135-143). *)
Definition statusReq (data : BuildIndexActionModel) (scope collection : string)
    (indexName : string) : IndexBuildStatusRequest :=
  {| OrganizationId := ValueString (mOrganizationId data);
     ProjectId := ValueString (mProjectId data);
     ClusterId := ValueString (mClusterId data);
     Bucket := ValueString (BucketName data);
     IndexName := indexName;
     Scope := scope;
     Collection := collection |}.

(** The request of the build call (lines 187-195). *)
Definition buildReq (data : BuildIndexActionModel) (scope collection : string)
    (buildIndexes : list string) : IndexBuildRequest :=
  {| bOrganizationId := ValueString (mOrganizationId data);
     bProjectId := ValueString (mProjectId data);
     bClusterId := ValueString (mClusterId data);
     bBucket := ValueString (BucketName data);
     bCollection := collection;
     bScope := scope;
     IndexNames := buildIndexes |}.

(** The body of the loop over [indexNames] (lines 134-172). *)
Definition iteration (data : BuildIndexActionModel)
    (scope collection : string) (buildIndexes : list string)
    (indexName : string) (st : State) : Flow (list string) * State :=
  let ibReq := statusReq data scope collection indexName in
  let '((res, err), st) := call (GetIndexBuildStatus PathEscape bi ibReq) st in
  match err with
  | Some e =>
      (Return,
       Diagnostics_AddError st "Get Index Build Status Failed"
         (fmt.Sprintf
            ("Cannot get index build status for index %s.  Error: %v" +:+ LF)
            indexName (fmt.str (Error e))))
  | None =>
    match res with
    | None => (Panic, st)
    | Some r =>
      let st := SendProgress st
                  (fmt.Sprintf "Index: %s, Status: %s" indexName (Status r)) in
      let decide_on (res : option IndexBuildStatusResponse) (st : State) :=
        match res with
        | None => (Panic, st)
        | Some r =>
            if (Status r =? "Created")%string
            then (Next (buildIndexes ++ [indexName]), st)
            else (Next buildIndexes, st)
        end in
      if (Status r =? "Scheduled for Creation")%string then
        let '((res, err), st) :=
          call (WaitForScheduledIndexCreation PathEscape bi polls ibReq) st in
        match err with
        | Some e =>
            (Return,
             Diagnostics_AddError st "Wait for Scheduled Index Creation Failed"
               (fmt.Sprintf
                  ("Cannot wait for scheduled index creation for index %s.  Error: %v"
                     +:+ LF)
                  indexName (fmt.str (Error e))))
        | None => decide_on res st
        end
      else decide_on (Some r) st
    end
  end.

Fixpoint loop (data : BuildIndexActionModel) (scope collection : string)
    (indexNames : list string) (buildIndexes : list string) (st : State)
  : Flow (list string) * State :=
  match indexNames with
  | [] => (Next buildIndexes, st)
  | indexName :: rest =>
    match iteration data scope collection buildIndexes indexName st with
    | (Next buildIndexes', st') => loop data scope collection rest buildIndexes' st'
    | stop => stop
    end
  end.

(** Lines 174-208: what is done with the batch once the loop is over. *)
Definition submit (data : BuildIndexActionModel) (scope collection : string)
    (buildIndexes : list string) (st : State) : Flow unit * State :=
  if (length buildIndexes =? 0)%nat then
    (Return, SendProgress st "No indexes need built")
  else
    let st := SendProgress st
                (fmt.Sprintf "The following indexes need built: %v"
                             (fmt.strs buildIndexes)) in
    let '((_, err), st) :=
      call (BuildDeferredIndexes bi
              (buildReq data scope collection buildIndexes)) st in
    match err with
    | Some e =>
        (Return,
         Diagnostics_AddError st "Build Deferred Indexes Failed"
           (fmt.Sprintf ("Cannot build deferred indexes.  Error: %v" +:+ LF)
                        (fmt.str (Error e))))
    | None =>
        (Return,
         SendProgress st
           "finished action invocation, Indexes will be built in the background.")
    end.

Definition Invoke (req : InvokeRequest) (st : State) : Flow unit * State :=
  let '(diags, data) := Config_Get req in
  let st := Diagnostics_Append st diags in
  if HasError (Diagnostics_ st) then (Return, st) else
  let scope := or_default (ScopeName data) in
  let collection := or_default (CollectionName data) in
  let '(diags, indexNames) := ElementsAs (mIndexNames data) in
  let st := Diagnostics_Append st diags in
  if HasError (Diagnostics_ st) then (Return, st) else
  match loop data scope collection indexNames [] st with
  | (Return, st) => (Return, st)
  | (Panic, st) => (Panic, st)
  | (Next buildIndexes, st) => submit data scope collection buildIndexes st
  end.
End Invoke.

(** *** Observing an invocation *)

(** The state in which the framework calls [Invoke]: nothing done yet, no
    diagnostics. *)
Definition start : State := {| events := []; Diagnostics_ := [] |}.

Definition config_data (req : InvokeRequest) : BuildIndexActionModel :=
  snd (Config_Get req).

Definition config_names (req : InvokeRequest) : list string :=
  snd (ElementsAs (mIndexNames (config_data req))).

(** The diagnostics once the configuration and the index names are read;
    the configuration is read without error when none of them is one. *)
Definition config_diagnostics (req : InvokeRequest) : Diagnostics :=
  Append (Append [] (fst (Config_Get req)))
         (fst (ElementsAs (mIndexNames (config_data req)))).

Definition config_ok (req : InvokeRequest) : Prop :=
  HasError (config_diagnostics req) = false.

Definition is_build_call (ev : Event) : bool :=
  match ev with EvPost _ _ _ => true | _ => false end.

Definition is_status_query (ev : Event) : bool :=
  match ev with EvGet _ _ _ => true | _ => false end.

Definition build_calls (evs : list Event) : list Event :=
  List.filter is_build_call evs.

Definition status_queries (evs : list Event) : list Event :=
  List.filter is_status_query evs.

(** The reply that carries the status [s]. *)
Definition status (s : string) : StatusReply := (Some {| Status := s |}, None).

(** The state [st] after the events [evs]. *)
Definition emit (st : State) (evs : list Event) : State :=
  {| events := events st ++ evs; Diagnostics_ := Diagnostics_ st |}.

(** The status query of [req] answered by [reply]. *)
Definition poll (PathEscape : string -> string) (req : IndexBuildStatusRequest)
    (reply : StatusReply) : Event :=
  EvGet (status_path PathEscape req) (status_params req) reply.

(** The status query of the index [n], answered by the status [s], and the
    progress message about it; and the state after them. *)
Definition report (PathEscape : string -> string)
    (data : BuildIndexActionModel) (scope collection : string)
    (n s : string) : list Event :=
  [poll PathEscape (statusReq data scope collection n) (status s);
   EvProgress ("Index: " +:+ n +:+ ", Status: " +:+ s)].

Definition reported (PathEscape : string -> string)
    (data : BuildIndexActionModel) (scope collection : string)
    (st : State) (n s : string) : State :=
  emit st (report PathEscape data scope collection n s).

(** The state in which the loop starts when the configuration is read
    without error, and the namespace it works in. *)
Definition configured (req : InvokeRequest) : State :=
  {| events := []; Diagnostics_ := config_diagnostics req |}.

Definition config_scope (req : InvokeRequest) : string :=
  or_default (ScopeName (config_data req)).

Definition config_collection (req : InvokeRequest) : string :=
  or_default (CollectionName (config_data req)).

(** The request of the build call for the batch [names]. *)
Definition config_buildReq (req : InvokeRequest) (names : list string)
  : IndexBuildRequest :=
  buildReq (config_data req) (config_scope req) (config_collection req) names.

(** The build call for [names], answered by [reply]. *)
Definition build_call (req : InvokeRequest) (names : list string)
    (reply : BuildReply) : Event :=
  EvPost (build_path (config_buildReq req names))
         (build_definition (config_buildReq req names)) reply.

(** The events of the iteration for the index [n]: status queries of its
    request, and progress messages. *)
Definition iteration_event (PathEscape : string -> string)
    (data : BuildIndexActionModel) (scope collection : string)
    (n : string) (ev : Event) : Prop :=
  (exists reply : StatusReply,
      ev = poll PathEscape (statusReq data scope collection n) reply)
  \/ (exists m : string, ev = EvProgress m).

(** The diagnostics after a piece of [Invoke] that ended as [f]: unchanged
    unless it returned, and then with an error. *)
Definition diagnostics_after {A : Type} (f : Flow A) (before after : Diagnostics)
  : Prop :=
  match f with
  | Return => HasError after = true
  | _ => after = before
  end.

(** An event that addresses the collection [collection] of the scope
    [scope] of [bucket]: a status query with these three as its query
    parameters, or a build call whose statement is on them. *)
Definition in_namespace (bucket scope collection : string) (ev : Event) : Prop :=
  match ev with
  | EvGet _ query _ =>
      query !! "bucket" = Some bucket
      /\ query !! "scope" = Some scope
      /\ query !! "collection" = Some collection
  | EvPost _ def _ =>
      exists names : list string,
        Definition_ def
        = "BUILD INDEX ON `" +:+ bucket +:+ "`.`" +:+ scope +:+ "`.`"
            +:+ collection +:+ "`(" +:+ String.concat ", " names +:+ ")"
  | EvProgress _ => True
  end.

(** What the wait returns for the reply that ends it. *)
Definition wait_result (reply : StatusReply) : StatusReply :=
  match reply with
  | (res, Some e) => (res, Some e)
  | (None, None) => (None, Some (errorString "index build status missing"))
  | (Some r, None) => (Some r, None)
  end.

Definition wait_timeout : StatusReply :=
  (None, Some (errorString "timed out waiting for scheduled index creation")).

End actions.


(** ** The rest of package [internal/actions]: metadata and configuration *)
Module action_setup.
Import client indexes framework actions.

(** [BuildIndexAction] defines the action implementation: the embedded
    [*apiclient.Client], nil until [Configure] sets it. *)
Record BuildIndexAction : Type := { Client_ : option Client }.

Definition NewBuildIndexAction : BuildIndexAction := {| Client_ := None |}.

(** [Metadata]: the type name of the action under a provider. *)
Definition Metadata (ProviderTypeName : string) : string :=
  ProviderTypeName +:+ "_build_index".

(** [req.ProviderData]: nil, a [*apiclient.Client], or a value of another
    type, of which only the name matters (it is what [%T] prints). *)
Inductive ProviderData : Type :=
| NoData
| ClientData (c : Client)
| OtherData (typeName : string).

(** [Configure]: the action and the diagnostics it leaves. *)
Definition Configure (bi : BuildIndexAction) (data : ProviderData)
    (ds : Diagnostics) : BuildIndexAction * Diagnostics :=
  match data with
  | NoData => (bi, ds)
  | OtherData typeName =>
      (bi,
       AddError ds "Unexpected Data Source Configure Type"
         ("Expected *providerschema.Data, got: " +:+ typeName
            +:+ ". Please report this issue to the provider developers."))
  | ClientData client => ({| Client_ := Some client |}, ds)
  end.

End action_setup.

(** ** Package [internal/provider] *)
Module provider.
Import client framework.

Definition capellaAuthenticationTokenField : string := "authentication_token".
Definition capellaPublicAPIHostField : string := "host".
Definition defaultAPIHostURL : string := "https://cloudapi.cloud.couchbase.com".

(** [CapellaProviderModel] describes the provider data model. *)
Record CapellaProviderModel : Type := {
  Host : String_;
  AuthenticationToken : String_;
}.

Definition IsUnknown (v : String_) : bool :=
  match v with StringUnknown => true | _ => false end.

(** A diagnostic of the provider: one about an attribute carries the name
    at the root of its path. *)
Record AttributeDiagnostic : Type := {
  attribute : option string;
  diagnostic : Diagnostic;
}.

#[global] Instance AttributeDiagnostic_eq_dec : EqDecision AttributeDiagnostic.
Proof. solve_decision. Defined.

Definition plain (d : Diagnostic) : AttributeDiagnostic :=
  {| attribute := None; diagnostic := d |}.

Definition has_error (ds : list AttributeDiagnostic) : bool :=
  HasError (map diagnostic ds).

(** [Diagnostics.Append], on the diagnostics of the provider. *)
Definition append (ds new : list AttributeDiagnostic) : list AttributeDiagnostic :=
  fold_left (fun acc d => if decide (d ∈ acc) then acc else acc ++ [d]) new ds.

Definition AddAttributeError (ds : list AttributeDiagnostic)
    (root summary detail : string) : list AttributeDiagnostic :=
  append ds [{| attribute := Some root;
                diagnostic := {| severity := SeverityError; Summary := summary;
                                 Detail_ := detail |} |}].

(** [req.Config], seen through [Get(ctx, &config)]. *)
Record ConfigureRequest : Type := {
  Config_Get : Diagnostics * CapellaProviderModel;
}.

Record ConfigureResponse : Type := {
  Diagnostics_ : list AttributeDiagnostic;
  DataSourceData : option Client;
  ResourceData : option Client;
  ActionData : option Client;
}.

Definition with_diagnostics (resp : ConfigureResponse)
    (ds : list AttributeDiagnostic) : ConfigureResponse :=
  {| Diagnostics_ := ds; DataSourceData := DataSourceData resp;
     ResourceData := ResourceData resp; ActionData := ActionData resp |}.

(** The environment of the process: [os.LookupEnv] is the lookup, and
    [os.Getenv] gives the empty string for a variable that is not set. *)
Abbreviation Env := (gmap string string).

Definition Getenv (env : Env) (name : string) : string :=
  match env !! name with Some v => v | None => "" end.

Definition unknown_token_detail : string :=
  "The provider cannot create the Capella API client as there is an unknown configuration value for the capella authentication token. "
  +:+ "Either target apply the source of the value first, set the value statically in the configuration, or use the CAPELLA_AUTHENTICATION_TOKEN environment variable.".

Definition missing_host_detail : string :=
  "The provider cannot create the Capella API client as there is a missing or empty value for the Capella API host. "
  +:+ "Set the host value in the configuration or use the TF_VAR_host environment variable. "
  +:+ "If either is already set, ensure the value is not empty.".

Definition missing_token_detail : string :=
  "The provider cannot create the Capella API client as there is a missing or empty value for the capella authentication token. "
  +:+ "Set the password value in the configuration or use the CAPELLA_AUTHENTICATION_TOKEN environment variable. "
  +:+ "If either is already set, ensure the value is not empty.".

Section Configure.
Variable url_Parse : string -> error + string.
Variable defaultHTTP : Request -> error + Response.
Variable env : Env.

(** Lines 83-94: the host and the token after the environment is
    consulted. *)
Definition resolve (config : CapellaProviderModel) : CapellaProviderModel :=
  let host :=
    if IsNull (Host config) then
      match env !! "CAPELLA_HOST" with
      | Some envHost => StringValue envHost
      | None => StringValue defaultAPIHostURL
      end
    else Host config in
  let token :=
    if IsNull (AuthenticationToken config)
    then StringValue (Getenv env "CAPELLA_AUTHENTICATION_TOKEN")
    else AuthenticationToken config in
  {| Host := host; AuthenticationToken := token |}.

Definition Configure (req : ConfigureRequest) (resp : ConfigureResponse)
  : ConfigureResponse :=
  let '(diags, config) := Config_Get req in
  let resp := with_diagnostics resp (append (Diagnostics_ resp) (map plain diags)) in
  if has_error (Diagnostics_ resp) then resp else
  let config := resolve config in
  let resp :=
    if IsUnknown (AuthenticationToken config) then
      with_diagnostics resp
        (AddAttributeError (Diagnostics_ resp) capellaAuthenticationTokenField
           "Unknown Capella Authentication Token" unknown_token_detail)
    else resp in
  if has_error (Diagnostics_ resp) then resp else
  let host := ValueString (Host config) in
  let authenticationToken := ValueString (AuthenticationToken config) in
  let resp :=
    if (host =? "")%string then
      with_diagnostics resp
        (AddAttributeError (Diagnostics_ resp) capellaPublicAPIHostField
           "Missing Capella Public API Host" missing_host_detail)
    else resp in
  let resp :=
    if (authenticationToken =? "")%string then
      with_diagnostics resp
        (AddAttributeError (Diagnostics_ resp) capellaAuthenticationTokenField
           "Missing Capella Authentication Token" missing_token_detail)
    else resp in
  if has_error (Diagnostics_ resp) then resp else
  let client :=
    NewClient url_Parse defaultHTTP
      [WithBaseURL url_Parse (ValueString (Host config));
       WithAuthenticator
         (bearer {| Token := ValueString (AuthenticationToken config) |})] in
  {| Diagnostics_ := Diagnostics_ resp;
     DataSourceData := Some client;
     ResourceData := Some client;
     ActionData := Some client |}.
End Configure.

(** The response with which the framework calls [Configure]. *)
Definition fresh : ConfigureResponse :=
  {| Diagnostics_ := []; DataSourceData := None; ResourceData := None;
     ActionData := None |}.

(** [Metadata]: the type name of the provider. *)
Definition TypeName : string := "capellaextras".

End provider.
(** ** Test doubles

    Small clients, services and configurations on which the properties
    below are run. *)
Module doubles.
Import client indexes framework actions.

Definition plainURL (base p : string) (query : gmap string string)
  : error + string := inr (base +:+ p).

Definition plainEncode (b : string) : error + string := inr b.

Definition plainRequest (method u : string) (body : option string)
  : error + Request :=
  inr {| Method := method; URL := u; Header := ∅; Body := body |}.

(** Reads every body as the message of an [unauthorized] error. *)
Definition unauthorizedPayload (body : string) : option apiError :=
  Some {| Code := "unauthorized"; Message := body; Detail := None |}.

Definition noDecode (body : string) : Decoded unit := DecodeEOF.

(** A client whose server answers 401 with body [no token]. *)
Definition rejecting : Client :=
  {| BaseURL := Some "https://capella.test";
     HTTP := fun _ => inr {| StatusCode := 401; RespBody := "no token" |};
     Auth := Some (bearer {| Token := "abc123" |});
     UserAgent := "test";
     OrganizationID := "";
     ProjectID := "" |}.

(** A service on which every index has the status [s] and every build
    is accepted. *)
Definition always (s : string) : Service :=
  {| on_Get := fun _ _ _ => status s;
     on_Post := fun _ _ _ => (Some {| Error_ := None |}, None) |}.

Definition queries_so_far (h : list Event) : nat := length (status_queries h).

(** The first status query finds the index scheduled, the later ones
    created. *)
Definition scheduled_once : Service :=
  {| on_Get := fun h _ _ =>
       if (queries_so_far h =? 0)%nat then status "Scheduled for Creation"
       else status "Created";
     on_Post := fun _ _ _ => (Some {| Error_ := None |}, None) |}.

(** The third status query fails; the others find the index created. *)
Definition third_fails : Service :=
  {| on_Get := fun h _ _ =>
       if (queries_so_far h =? 2)%nat
       then (None, Some (errorString "connection refused"))
       else status "Created";
     on_Post := fun _ _ _ => (Some {| Error_ := None |}, None) |}.

(** A configuration that reads without diagnostics. *)
Definition config (scope collection : String_) (names : list string)
  : InvokeRequest :=
  {| Config_Get :=
       ([], {| mOrganizationId := StringValue "org";
               mProjectId := StringValue "proj";
               mClusterId := StringValue "cluster";
               BucketName := StringValue "b";
               mIndexNames := {| ElementsAs := ([], names) |};
               ScopeName := scope;
               CollectionName := collection |}) |}.

Definition noEscape (s : string) : string := s.

End doubles.


(** ** More test doubles *)
Module doubles2.
Import client indexes framework actions.

(** Header names that are already canonical. *)
Definition canonical (key : string) : string := key.

(** A parser that accepts every text as it is, and one that accepts none. *)
Definition parseAll (raw : string) : error + string := inr raw.
Definition parseNone (raw : string) : error + string :=
  inl (errorString "parse error").

(** A parser that accepts what starts with [https://]. *)
Definition parseHttps (raw : string) : error + string :=
  if String.prefix "https://" raw then inr raw
  else inl (errorString "parse error").

Definition refusing (req : Request) : error + Response :=
  inl (errorString "connection refused").

(** A transport that answers 200 with an empty body. *)
Definition emptyOK (req : Request) : error + Response :=
  inr {| StatusCode := 200; RespBody := "" |}.

Definition emptyRequest : Request :=
  {| Method := "GET"; URL := "https://capella.test/"; Header := ∅; Body := None |}.

(** A service that finds every index created and refuses the build. *)
Definition build_refused : Service :=
  {| on_Get := fun _ _ _ => status "Created";
     on_Post := fun _ _ _ => (None, Some (errorString "build refused")) |}.

(** A service that finds every index created and whose answer to the build
    carries an error text, without failing. *)
Definition build_complains : Service :=
  {| on_Get := fun _ _ _ => status "Created";
     on_Post := fun _ _ _ => (Some {| Error_ := Some "index not found" |}, None) |}.

(** A configuration whose index names do not convert. *)
Definition bad_names : InvokeRequest :=
  {| actions.Config_Get :=
       ([], {| mOrganizationId := StringValue "org";
               mProjectId := StringValue "proj";
               mClusterId := StringValue "cluster";
               BucketName := StringValue "b";
               mIndexNames :=
                 {| ElementsAs :=
                      ([{| severity := SeverityError;
                           Summary := "Value Conversion Error";
                           Detail_ := "unhandled null value" |}], []) |};
               ScopeName := StringNull;
               CollectionName := StringNull |}) |}.

(** A client for the configuration [doubles.config] whose server answers
    200 with an empty body. *)
Definition silent : Client :=
  {| BaseURL := Some "https://capella.test";
     HTTP := emptyOK;
     Auth := None;
     UserAgent := "";
     OrganizationID := "";
     ProjectID := "" |}.

(** A status decoder for which an empty body is the end of the input. *)
Definition decodeStatus (body : string)
  : Decoded (option IndexBuildStatusResponse) :=
  if (body =? "")%string then DecodeEOF
  else DecodeOk (Some {| Status := body |}).

Definition decodeBuild (body : string) : Decoded (option IndexBuildResponse) :=
  DecodeEOF.

Definition encodeDefinition (def : IndexDefinition) : error + string :=
  inr (Definition_ def).

(** Environments of the provider. *)
Definition env_token : gmap string string :=
  {[ "CAPELLA_AUTHENTICATION_TOKEN" := "env-token" ]}.

Definition env_empty_host : gmap string string :=
  <[ "CAPELLA_HOST" := "" ]> env_token.

Definition provider_config (host token : String_) : provider.ConfigureRequest :=
  {| provider.Config_Get :=
       ([], {| provider.Host := host; provider.AuthenticationToken := token |}) |}.

End doubles2.
(** * Properties *)

Import client indexes framework actions.

(** ** Strings and formats *)

Lemma append_cons (ch : ascii) (a b : string) :
  String ch a +:+ b = String ch (a +:+ b).
Proof. reflexivity. Qed.

Lemma append_nil_l (a : string) : "" +:+ a = a.
Proof. reflexivity. Qed.

Lemma append_assoc (a b c : string) : (a +:+ b) +:+ c = a +:+ (b +:+ c).
Proof.
  induction a as [|ch a IH]; [reflexivity|].
  rewrite !append_cons. now rewrite IH.
Qed.

Lemma append_nil_r (a : string) : a +:+ "" = a.
Proof.
  induction a as [|ch a IH]; [reflexivity|].
  rewrite append_cons. now rewrite IH.
Qed.

Lemma concat_cons_cons (sep a b : string) (l : list string) :
  String.concat sep (a :: b :: l) = a +:+ sep +:+ String.concat sep (b :: l).
Proof. reflexivity. Qed.

Lemma concat_absorb (sep a b : string) (l : list string) :
  String.concat sep ((a +:+ sep +:+ b) :: l) = String.concat sep (a :: b :: l).
Proof.
  destruct l as [|x l]; [reflexivity|].
  rewrite !concat_cons_cons. now rewrite !append_assoc.
Qed.

(** [strings.Join] is the separator-joined text of the standard library. *)
Lemma strings_Join_concat (elems : list string) (sep : string) :
  strings_Join elems sep = String.concat sep elems.
Proof.
  destruct elems as [|first rest]; [reflexivity|].
  unfold strings_Join. revert first.
  induction rest as [|r rest IH]; intros first; [reflexivity|].
  simpl fold_left. rewrite IH. apply concat_absorb.
Qed.

Lemma eqb_false_iff (a b : string) : (a =? b)%string = false <-> a <> b.
Proof. apply String.eqb_neq. Qed.

(** ** The build statement *)

(** C6.  The statement that [BuildDeferredIndexes] posts is
    [BUILD INDEX ON `b`.`s`.`c`(] followed by the index names joined by a
    comma and a space, followed by [)], for every bucket [b], scope [s],
    collection [c] and list of names; for the names [idx1], [idx2] on [b],
    [s], [c] it is exactly [BUILD INDEX ON `b`.`s`.`c`(idx1, idx2)]. *)
Theorem build_definition_statement :
  (forall (org proj cl b s c : string) (ns : list string),
      Definition_
        (build_definition
           {| bOrganizationId := org; bProjectId := proj; bClusterId := cl;
              bBucket := b; IndexNames := ns; bScope := s; bCollection := c |})
      = "BUILD INDEX ON `" +:+ b +:+ "`.`" +:+ s +:+ "`.`" +:+ c +:+ "`("
          +:+ String.concat ", " ns +:+ ")")
  /\ (forall org proj cl : string,
      Definition_
        (build_definition
           {| bOrganizationId := org; bProjectId := proj; bClusterId := cl;
              bBucket := "b"; IndexNames := ["idx1"; "idx2"];
              bScope := "s"; bCollection := "c" |})
      = "BUILD INDEX ON `b`.`s`.`c`(idx1, idx2)").
Proof.
  split.
  - intros org proj cl b s c ns.
    unfold build_definition. cbn [Definition_ bBucket bScope bCollection IndexNames].
    rewrite strings_Join_concat. reflexivity.
  - intros. reflexivity.
Qed.

(** ** The client: authentication and errors *)

Lemma Header_Get_Set (h : http_Header) (key value : string) :
  Header_Get (Header_Set h key value) key = value.
Proof. unfold Header_Get, Header_Set. now rewrite lookup_insert_eq. Qed.

(** A bearer authenticator with a token leaves [Bearer <token>] as the only
    value of [Authorization] and touches nothing else. *)
Lemma BearerTokenAuth_Apply_token (t : string) (req : Request) :
  t <> "" ->
  BearerTokenAuth_Apply {| Token := t |} req
  = ({| Method := Method req; URL := URL req;
        Header := <["Authorization" := ["Bearer " +:+ t]]> (Header req);
        Body := Body req |}, None).
Proof.
  intros Ht. unfold BearerTokenAuth_Apply. cbn [Token].
  apply String.eqb_neq in Ht. now rewrite Ht.
Qed.

(** C9.  On every request, the bearer authenticator with token [abc123]
    sets the header [Authorization] to exactly [Bearer abc123] (its only
    value; the rest of the request is as before) and reports no error; the
    bearer authenticator with the empty token leaves the request as it is,
    so it sets no [Authorization] header, and reports no error. *)
Theorem BearerTokenAuth_Apply_abc123 (req : Request) :
  (snd (BearerTokenAuth_Apply {| Token := "abc123" |} req) = None
   /\ Header (fst (BearerTokenAuth_Apply {| Token := "abc123" |} req))
        !! "Authorization" = Some ["Bearer abc123"]
   /\ Header_Get (Header (fst (BearerTokenAuth_Apply {| Token := "abc123" |} req)))
        "Authorization" = "Bearer abc123"
   /\ fst (BearerTokenAuth_Apply {| Token := "abc123" |} req)
      = set_header req "Authorization" "Bearer abc123")
  /\ BearerTokenAuth_Apply {| Token := "" |} req = (req, None).
Proof.
  split; [|reflexivity].
  rewrite BearerTokenAuth_Apply_token by discriminate.
  cbn [fst snd Header]. repeat split.
  - apply lookup_insert_eq.
  - apply (Header_Get_Set (Header req) "Authorization" "Bearer abc123").
Qed.

(** Whatever [Do] hands to the transport of a client with a bearer token
    carries that token. *)
Lemma prepare_bearer_header {B : Type} buildURL (json_Encode : B -> error + string)
    NewRequest (c : Client) (method p : string) (query : gmap string string)
    (body : option B) (t : string) (req : Request) :
  Auth c = Some (bearer {| Token := t |}) -> t <> "" ->
  prepare buildURL json_Encode NewRequest c method p query body = inr req ->
  Header_Get (Header req) "Authorization" = "Bearer " +:+ t.
Proof.
  intros Hauth Ht. unfold prepare. rewrite Hauth.
  destruct (BaseURL c); [|discriminate].
  destruct (buildURL _ _ _); [discriminate|].
  destruct (match body with None => _ | Some _ => _ end); [discriminate|].
  destruct (NewRequest _ _ _); [discriminate|].
  cbn [Apply bearer]. rewrite BearerTokenAuth_Apply_token by assumption.
  intros [= <-]. cbn [Header]. unfold Header_Get. now rewrite lookup_insert_eq.
Qed.

(** How an [apiError] renders. *)
Lemma apiError_Error_cases (ae : apiError) :
  (Code ae <> "" -> Message ae <> "" ->
     apiError_Error ae = Code ae +:+ ": " +:+ Message ae)
  /\ (Code ae <> "" -> Message ae = "" -> apiError_Error ae = Code ae)
  /\ (Code ae = "" -> Message ae <> "" -> apiError_Error ae = Message ae)
  /\ (Code ae = "" -> Message ae = "" -> apiError_Error ae = "capella api error").
Proof.
  unfold apiError_Error.
  destruct (String.eqb_spec (Code ae) "") as [Hc|Hc];
    destruct (String.eqb_spec (Message ae) "") as [Hm|Hm];
    cbn [andb]; repeat split; intros; try congruence.
  cbv [fmt.Sprintf fmt.parse fmt.run]. cbn [fmt.operands].
  now rewrite append_nil_r.
Qed.

(** C8.  When the transport yields a response whose status code is outside
    200..299, [Do] returns that response with a non-nil error.  If the body
    decodes to an error payload, the payload renders as [<code>: <message>]
    when both are present, as the one present when only one is, and as
    [capella api error] when neither is; the returned error wraps the
    payload, its message being the payload's followed by the status, when
    one of the two is present; when neither is, it is the generic
    [capella api request failed] message. *)
Theorem Do_non_2xx_error {B O : Type} buildURL (json_Encode : B -> error + string)
    NewRequest unmarshal (decode : string -> Decoded O)
    (c : Client) (method p : string) (query : gmap string string)
    (body : option B) (out : bool) (req : Request) (resp : Response) :
  prepare buildURL json_Encode NewRequest c method p query body = inr req ->
  HTTP c req = inr resp ->
  StatusCode resp < 200 \/ 300 <= StatusCode resp ->
  exists err : error,
    Do buildURL json_Encode NewRequest unmarshal decode c method p query body out
    = (Some resp, Some err, None)
    /\ forall ae : apiError,
        unmarshal (RespBody resp) = Some ae ->
        (Code ae <> "" -> Message ae <> "" ->
           apiError_Error ae = Code ae +:+ ": " +:+ Message ae)
        /\ (Code ae <> "" -> Message ae = "" -> apiError_Error ae = Code ae)
        /\ (Code ae = "" -> Message ae <> "" -> apiError_Error ae = Message ae)
        /\ (Code ae = "" -> Message ae = "" ->
              apiError_Error ae = "capella api error")
        /\ (Code ae <> "" \/ Message ae <> "" ->
              err = wrapError
                      (apiError_Error ae +:+ " (status "
                         +:+ fmt.print_int (StatusCode resp) +:+ ")")
                      (apiErr ae))
        /\ (Code ae = "" -> Message ae = "" ->
              err = errorString
                      ("capella api request failed: status "
                         +:+ fmt.print_int (StatusCode resp)
                         +:+ ", body: " +:+ RespBody resp)).
Proof.
  intros Hreq Hresp Hcode.
  unfold Do. rewrite Hreq, Hresp. unfold receive.
  assert ((StatusCode resp <? 200) || (StatusCode resp >=? 300) = true) as ->.
  { apply orb_true_iff. destruct Hcode; [left|right]; lia. }
  destruct (unmarshal (RespBody resp)) as [ae|] eqn:Hae.
  - destruct (String.eqb_spec (Code ae) "") as [Hc|Hc];
      destruct (String.eqb_spec (Message ae) "") as [Hm|Hm]; cbn [negb orb];
      eexists; (split; [reflexivity|]); intros ae' [= <-];
      pose proof (apiError_Error_cases ae) as (H1 & H2 & H3 & H4);
      repeat split; auto; try congruence; try (intros [?|?]; congruence);
      intros _; cbv [Errorf fmt.parse fmt.run]; cbn [fmt.operands Error];
      now rewrite ?append_nil_r, ?append_assoc.
  - eexists. split; [reflexivity|]. intros ae [=].
Qed.

(** The rejecting client answers 401: the error of [Do] wraps the payload
    and reads [unauthorized: no token (status 401)]. *)
Lemma Do_non_2xx_error_witness :
  exists err : error,
    Do doubles.plainURL doubles.plainEncode doubles.plainRequest
       doubles.unauthorizedPayload doubles.noDecode
       doubles.rejecting "GET" "/health" ∅ None true
    = (Some {| StatusCode := 401; RespBody := "no token" |}, Some err, None)
    /\ Error err = "unauthorized: no token (status 401)".
Proof.
  destruct (Do_non_2xx_error doubles.plainURL doubles.plainEncode
              doubles.plainRequest doubles.unauthorizedPayload doubles.noDecode
              doubles.rejecting "GET" "/health" ∅ None true
              (set_header
                 (set_header
                    (set_header
                       {| Method := "GET"; URL := "https://capella.test/health";
                          Header := ∅; Body := None |}
                       "Accept" "application/json")
                    "User-Agent" "test")
                 "Authorization" "Bearer abc123")
              {| StatusCode := 401; RespBody := "no token" |})
    as (err & Hdo & Hpayload);
    [reflexivity | reflexivity | right; cbn [StatusCode]; lia |].
  exists err. split; [exact Hdo|].
  destruct (Hpayload _ eq_refl) as (_ & _ & _ & _ & Hwrap & _).
  rewrite Hwrap by (left; discriminate). reflexivity.
Defined.

(** ** Diagnostics *)

Lemma HasError_app (ds ds' : Diagnostics) :
  HasError (ds ++ ds') = HasError ds || HasError ds'.
Proof. apply existsb_app. Qed.

Lemma HasError_elem (d : Diagnostic) (ds : Diagnostics) :
  d ∈ ds -> is_error d = true -> HasError ds = true.
Proof.
  intros Hin Hd. apply existsb_exists. exists d. split; [|exact Hd].
  now apply list_elem_of_In.
Qed.

Lemma HasError_Append (ds new : Diagnostics) :
  HasError (Append ds new) = HasError ds || HasError new.
Proof.
  unfold Append. revert ds.
  induction new as [|d new IH]; intros ds; cbn [fold_left].
  - cbn. now rewrite orb_false_r.
  - rewrite IH. cbn [HasError existsb].
    destruct (decide (d ∈ ds)) as [Hin|Hin].
    + destruct (is_error d) eqn:Hd; cbn [orb]; [|reflexivity].
      now rewrite (HasError_elem d ds Hin Hd).
    + rewrite HasError_app. cbn. rewrite orb_false_r. now rewrite orb_assoc.
Qed.

Lemma AddError_elem (ds : Diagnostics) (summary detail : string) :
  {| severity := SeverityError; Summary := summary; Detail_ := detail |}
    ∈ AddError ds summary detail.
Proof.
  unfold AddError, Append. cbn [fold_left].
  destruct (decide (_ ∈ ds)) as [Hin|Hin]; [exact Hin|].
  apply elem_of_app. right. apply list_elem_of_singleton. reflexivity.
Qed.

Lemma HasError_AddError (ds : Diagnostics) (summary detail : string) :
  HasError (AddError ds summary detail) = true.
Proof.
  eapply HasError_elem; [apply AddError_elem | reflexivity].
Qed.

(** An error added to diagnostics without error is added at the end. *)
Lemma AddError_fresh (ds : Diagnostics) (summary detail : string) :
  HasError ds = false ->
  AddError ds summary detail
  = ds ++ [{| severity := SeverityError; Summary := summary; Detail_ := detail |}].
Proof.
  intros Hds. unfold AddError, Append. cbn [fold_left].
  destruct (decide (_ ∈ ds)) as [Hin|Hin]; [|reflexivity].
  now rewrite (HasError_elem _ ds Hin eq_refl) in Hds.
Qed.

(** ** Formats of the action *)

Lemma Sprintf_index_status (n s : string) :
  fmt.Sprintf "Index: %s, Status: %s" n s = "Index: " +:+ n +:+ ", Status: " +:+ s.
Proof.
  cbv [fmt.Sprintf fmt.parse fmt.run]. cbn [fmt.operands].
  now rewrite append_nil_r.
Qed.

Lemma Sprintf_status_failed (n e : string) :
  fmt.Sprintf ("Cannot get index build status for index %s.  Error: %v" +:+ LF)
    n (fmt.str e)
  = "Cannot get index build status for index " +:+ n +:+ ".  Error: " +:+ e +:+ LF.
Proof. reflexivity. Qed.

Lemma Sprintf_wait_failed (n e : string) :
  fmt.Sprintf
    ("Cannot wait for scheduled index creation for index %s.  Error: %v" +:+ LF)
    n (fmt.str e)
  = "Cannot wait for scheduled index creation for index " +:+ n
      +:+ ".  Error: " +:+ e +:+ LF.
Proof. reflexivity. Qed.

Lemma Sprintf_need_built (l : list string) :
  fmt.Sprintf "The following indexes need built: %v" (fmt.strs l)
  = "The following indexes need built: [" +:+ String.concat " " l +:+ "]".
Proof.
  cbv [fmt.Sprintf fmt.parse fmt.run fmt.print_any]. cbn [fmt.operands].
  now rewrite append_nil_r.
Qed.

(** ** One status query, one wait, one iteration *)

Section Workflow.
Variable PE : string -> string.
Variable bi : Service.
Variable polls : nat.

Lemma emit_emit (st : State) (evs evs' : list Event) :
  emit (emit st evs) evs' = emit st (evs ++ evs').
Proof. unfold emit. cbn [events Diagnostics_]. now rewrite app_assoc. Qed.

Lemma emit_nil (st : State) : emit st [] = st.
Proof. destruct st. unfold emit. cbn. now rewrite app_nil_r. Qed.

Lemma call_GetIndexBuildStatus (req : IndexBuildStatusRequest) (st : State) :
  call (GetIndexBuildStatus PE bi req) st
  = (on_Get bi (events st) (status_path PE req) (status_params req),
     emit st [poll PE req
                (on_Get bi (events st) (status_path PE req) (status_params req))]).
Proof. reflexivity. Qed.

(** The wait polls the same request again and again: every reply but the
    last is the scheduled status; it ends on the first other reply, or
    without one when the polls are used up. *)
Lemma WaitForScheduledIndexCreation_polls (req : IndexBuildStatusRequest) :
  forall (n : nat) (h : list Event) (reply : StatusReply) (h' : list Event),
    WaitForScheduledIndexCreation PE bi n req h = (reply, h') ->
    exists k : nat,
      (k = n
       /\ h' = h ++ map (poll PE req) (repeat (status "Scheduled for Creation") k)
       /\ reply = wait_timeout)
      \/ (exists last : StatusReply,
            (k < n)%nat
            /\ last <> status "Scheduled for Creation"
            /\ h' = h ++ map (poll PE req)
                           (repeat (status "Scheduled for Creation") k ++ [last])
            /\ last = on_Get bi
                        (h ++ map (poll PE req)
                               (repeat (status "Scheduled for Creation") k))
                        (status_path PE req) (status_params req)
            /\ reply = wait_result last).
Proof.
  induction n as [|n IH]; intros h reply h' Hw; cbn [WaitForScheduledIndexCreation] in Hw.
  - injection Hw as <- <-. exists 0%nat. left. cbn. now rewrite app_nil_r.
  - unfold GetIndexBuildStatus in Hw.
    set (r := on_Get bi h (status_path PE req) (status_params req)) in *.
    assert (Hstop : r <> status "Scheduled for Creation" ->
                    (wait_result r, h ++ [poll PE req r]) = (reply, h') ->
                    exists k : nat,
                      (k = S n
                       /\ h' = h ++ map (poll PE req)
                                      (repeat (status "Scheduled for Creation") k)
                       /\ reply = wait_timeout)
                      \/ (exists last : StatusReply,
                            (k < S n)%nat
                            /\ last <> status "Scheduled for Creation"
                            /\ h' = h ++ map (poll PE req)
                                      (repeat (status "Scheduled for Creation") k ++ [last])
                            /\ last = on_Get bi
                                        (h ++ map (poll PE req)
                                               (repeat (status "Scheduled for Creation") k))
                                        (status_path PE req) (status_params req)
                            /\ reply = wait_result last)).
    { intros Hr [= <- <-]. exists 0%nat. right. exists r.
      cbn [repeat map app]. rewrite app_nil_r. repeat split; [lia | exact Hr]. }
    destruct r as [[[s]|] [e|]] eqn:Hreq.
    + apply Hstop; [discriminate | exact Hw].
    + cbn [Status] in Hw.
      destruct (String.eqb_spec s "Scheduled for Creation") as [->|Hs].
      * apply IH in Hw as [k Hk]. exists (S k).
        cbn [repeat map app]. fold (poll PE req (status "Scheduled for Creation")) in *.
        destruct Hk as [(-> & -> & ->) | (last & Hlt & Hlast & -> & Hon & ->)].
        -- left. rewrite <- app_assoc. repeat split.
        -- right. exists last. rewrite <- !app_assoc in *. cbn [app] in *.
           repeat split; [lia | exact Hlast | exact Hon].
      * apply Hstop; [|exact Hw]. unfold status. congruence.
    + apply Hstop; [discriminate | exact Hw].
    + apply Hstop; [discriminate | exact Hw].
Qed.

Variable data : BuildIndexActionModel.
Variables scope collection : string.

Abbreviation req := (statusReq data scope collection).
Notation "'first_reply' st n" :=
  (on_Get bi (events st) (status_path PE (req n)) (status_params (req n)))
    (at level 10, st at level 9, n at level 9, only parsing).

(** A failed status query ends the invocation with an error that names the
    index. *)
Lemma iteration_failed (acc : list string) (n : string) (st : State)
    (res : option IndexBuildStatusResponse) (e : error) :
  first_reply st n = (res, Some e) ->
  iteration PE bi polls data scope collection acc n st
  = (Return,
     Diagnostics_AddError (emit st [poll PE (req n) (res, Some e)])
       "Get Index Build Status Failed"
       ("Cannot get index build status for index " +:+ n
          +:+ ".  Error: " +:+ Error e +:+ LF)).
Proof.
  intros Hr. unfold iteration. rewrite call_GetIndexBuildStatus, Hr.
  now rewrite Sprintf_status_failed.
Qed.

Lemma iteration_missing (acc : list string) (n : string) (st : State) :
  first_reply st n = (None, None) ->
  iteration PE bi polls data scope collection acc n st
  = (Panic, emit st [poll PE (req n) (None, None)]).
Proof.
  intros Hr. unfold iteration. now rewrite call_GetIndexBuildStatus, Hr.
Qed.

Abbreviation reported := (reported PE data scope collection).

Lemma iteration_created (acc : list string) (n : string) (st : State) :
  first_reply st n = status "Created" ->
  iteration PE bi polls data scope collection acc n st
  = (Next (acc ++ [n]), reported st n "Created").
Proof.
  intros Hr. unfold iteration. rewrite call_GetIndexBuildStatus, Hr.
  unfold status. cbn [Status String.eqb Ascii.eqb Bool.eqb].
  unfold SendProgress, reported. rewrite Sprintf_index_status.
  unfold emit. cbn [events Diagnostics_]. now rewrite <- app_assoc.
Qed.

Lemma iteration_other (acc : list string) (n s : string) (st : State) :
  s <> "Created" -> s <> "Scheduled for Creation" ->
  first_reply st n = status s ->
  iteration PE bi polls data scope collection acc n st
  = (Next acc, reported st n s).
Proof.
  intros Hc Hs Hr. unfold iteration. rewrite call_GetIndexBuildStatus, Hr.
  unfold status. cbn [Status].
  apply String.eqb_neq in Hc, Hs. rewrite Hc, Hs.
  unfold SendProgress, reported. rewrite Sprintf_index_status.
  unfold emit. cbn [events Diagnostics_]. now rewrite <- app_assoc.
Qed.

(** On the scheduled status the wait runs, and what it returns decides. *)
Lemma iteration_scheduled (acc : list string) (n : string) (st : State) :
  first_reply st n = status "Scheduled for Creation" ->
  iteration PE bi polls data scope collection acc n st
  = let st1 := reported st n "Scheduled for Creation" in
    let w := WaitForScheduledIndexCreation PE bi polls (req n) (events st1) in
    let st2 := {| events := snd w; Diagnostics_ := Diagnostics_ st |} in
    match fst w with
    | (_, Some e) =>
        (Return,
         Diagnostics_AddError st2 "Wait for Scheduled Index Creation Failed"
           ("Cannot wait for scheduled index creation for index " +:+ n
              +:+ ".  Error: " +:+ Error e +:+ LF))
    | (None, None) => (Panic, st2)
    | (Some r, None) =>
        (Next (if (Status r =? "Created")%string then acc ++ [n] else acc), st2)
    end.
Proof.
  intros Hr. unfold iteration. rewrite call_GetIndexBuildStatus, Hr.
  unfold status. cbn [Status String.eqb Ascii.eqb Bool.eqb].
  unfold SendProgress. rewrite Sprintf_index_status.
  unfold call, reported, emit. cbn [events Diagnostics_].
  rewrite <- app_assoc. cbn [app].
  destruct (WaitForScheduledIndexCreation _ _ _ _ _) as [[res [e|]] h'];
    cbn [fst snd].
  - rewrite Sprintf_wait_failed. now destruct res.
  - destruct res as [r|]; [|reflexivity].
    now destruct (Status r =? "Created")%string.
Qed.

(** Every iteration starts with the status query of its index; all it
    does besides is to query that status again and to report. *)
Lemma iteration_events (acc : list string) (n : string) (st : State)
    (f : Flow (list string)) (st' : State) :
  iteration PE bi polls data scope collection acc n st = (f, st') ->
  exists evs : list Event,
    events st' = events st ++ poll PE (req n) (first_reply st n) :: evs
    /\ Forall (iteration_event PE data scope collection n) evs
    /\ diagnostics_after f (Diagnostics_ st) (Diagnostics_ st').
Proof.
  intros Hit.
  destruct (first_reply st n) as [[[s]|] [e|]] eqn:Hr.
  - rewrite (iteration_failed _ _ _ _ _ Hr) in Hit. injection Hit as <- <-.
    exists []. cbn. split; [reflexivity|]. split; [constructor|].
    apply HasError_AddError.
  - destruct (String.eqb_spec s "Scheduled for Creation") as [->|Hs].
    + rewrite (iteration_scheduled _ _ _ Hr) in Hit. cbv zeta in Hit.
      destruct (WaitForScheduledIndexCreation _ _ _ _ _) as [w h'] eqn:Hw.
      apply WaitForScheduledIndexCreation_polls in Hw as [k Hk].
      assert (exists evs : list Event,
                 h' = events st ++ poll PE (req n) (status "Scheduled for Creation") :: evs
                 /\ Forall (iteration_event PE data scope collection n) evs)
        as (evs & -> & Hevs).
      { assert (Hpolls : forall l, Forall (iteration_event PE data scope collection n)
                                    (map (poll PE (req n)) l)).
        { intros l. induction l as [|r l IHl]; constructor; [|exact IHl].
          left. now exists r. }
        unfold reported, emit in Hk. cbn [events] in Hk.
        destruct Hk as [(_ & -> & _) | (last & _ & _ & -> & _)];
          rewrite <- app_assoc; cbn [app]; eexists; (split; [reflexivity|]);
          (constructor; [right; now eexists | apply Hpolls]). }
      exists evs. cbn [fst snd] in Hit.
      destruct w as [[r|] [e|]]; injection Hit as <- <-; cbn;
        repeat split; try assumption; apply HasError_AddError.
    + destruct (String.eqb_spec s "Created") as [->|Hc].
      * rewrite (iteration_created _ _ _ Hr) in Hit. injection Hit as <- <-.
        eexists. repeat split. constructor; [right; now eexists | constructor].
      * rewrite (iteration_other _ _ _ _ Hc Hs Hr) in Hit. injection Hit as <- <-.
        eexists. repeat split. constructor; [right; now eexists | constructor].
  - rewrite (iteration_failed _ _ _ _ _ Hr) in Hit. injection Hit as <- <-.
    exists []. cbn. split; [reflexivity|]. split; [constructor|].
    apply HasError_AddError.
  - rewrite (iteration_missing _ _ _ Hr) in Hit. injection Hit as <- <-.
    exists []. cbn. repeat split. constructor.
Qed.

(** ** The loop *)

Lemma loop_events (names : list string) :
  forall (acc : list string) (st : State) (f : Flow (list string)) (st' : State),
    loop PE bi polls data scope collection names acc st = (f, st') ->
    exists evs : list Event,
      events st' = events st ++ evs
      /\ Forall (fun ev => exists n, n ∈ names
                   /\ iteration_event PE data scope collection n ev) evs
      /\ diagnostics_after f (Diagnostics_ st) (Diagnostics_ st').
Proof.
  induction names as [|n names IH]; intros acc st f st' Hloop; cbn [loop] in Hloop.
  - injection Hloop as <- <-. exists []. rewrite app_nil_r.
    repeat split. constructor.
  - destruct (iteration _ _ _ _ _ _ _ _ _) as [f1 st1] eqn:Hit.
    apply iteration_events in Hit as (evs1 & He1 & Hf1 & Hd1).
    assert (Hhead : Forall (fun ev => exists n0, n0 ∈ n :: names
                      /\ iteration_event PE data scope collection n0 ev)
                    (poll PE (req n) (first_reply st n) :: evs1)).
    { constructor.
      - exists n. split; [left|]. left. now eexists.
      - eapply Forall_impl; [exact Hf1|]. intros ev Hev. exists n.
        split; [left | exact Hev]. }
    destruct f1 as [acc1| |].
    + apply IH in Hloop as (evs & He & Hf & Hd).
      exists ((poll PE (req n) (first_reply st n) :: evs1) ++ evs).
      rewrite He, He1, <- app_assoc. split; [reflexivity|]. split.
      * apply Forall_app. split; [exact Hhead|].
        eapply Forall_impl; [exact Hf|]. intros ev (n0 & Hn0 & Hev).
        exists n0. split; [now right | exact Hev].
      * cbn in Hd1. rewrite <- Hd1. exact Hd.
    + injection Hloop as <- <-. eexists. split; [exact He1|]. now split.
    + injection Hloop as <- <-. eexists. split; [exact He1|]. now split.
Qed.

(** The status query that opens the loop, with its reply, is among the
    events of the loop however it goes on. *)
Lemma loop_first_query (n : string) (names acc : list string) (st : State)
    (f : Flow (list string)) (st' : State) :
  loop PE bi polls data scope collection (n :: names) acc st = (f, st') ->
  exists evs : list Event,
    events st' = events st ++ poll PE (req n) (first_reply st n) :: evs.
Proof.
  cbn [loop]. intros Hloop.
  destruct (iteration _ _ _ _ _ _ _ _ _) as [f1 st1] eqn:Hit.
  apply iteration_events in Hit as (evs1 & He1 & _).
  destruct f1 as [acc1| |].
  - apply loop_events in Hloop as (evs & He & _).
    exists (evs1 ++ evs). rewrite He, He1, <- app_assoc. reflexivity.
  - injection Hloop as <- <-. now exists evs1.
  - injection Hloop as <- <-. now exists evs1.
Qed.

(** The loop over a list in two parts. *)
Lemma loop_app (pre post : list string) :
  forall (acc : list string) (st : State),
    loop PE bi polls data scope collection (pre ++ post) acc st
    = match loop PE bi polls data scope collection pre acc st with
      | (Next acc', st') => loop PE bi polls data scope collection post acc' st'
      | stop => stop
      end.
Proof.
  induction pre as [|n pre IH]; intros acc st; [reflexivity|].
  cbn [app loop].
  destruct (iteration _ _ _ _ _ _ _ _ _) as [[acc1| |] st1]; [apply IH|..];
    reflexivity.
Qed.

(** If every status queried in the loop is [Created], the loop collects
    all the names in their order. *)
Lemma loop_all_created (names : list string) :
  forall (acc : list string) (st : State) (f : Flow (list string)) (st' : State),
    loop PE bi polls data scope collection names acc st = (f, st') ->
    (forall path query reply,
        EvGet path query reply ∈ events st' -> reply = status "Created") ->
    f = Next (acc ++ names)
    /\ st' = emit st (flat_map (fun n => report PE data scope collection n "Created")
                               names).
Proof.
  induction names as [|n names IH]; intros acc st f st' Hloop Hall.
  - cbn in Hloop. injection Hloop as <- <-.
    now rewrite app_nil_r, emit_nil.
  - assert (Hr : first_reply st n = status "Created").
    { destruct (loop_first_query _ _ _ _ _ _ Hloop) as [evs Hevs].
      eapply Hall. rewrite Hevs. apply elem_of_app. right. left. }
    cbn [loop] in Hloop. rewrite (iteration_created _ _ _ Hr) in Hloop.
    destruct (IH _ _ _ _ Hloop Hall) as [-> ->]. split.
    + now rewrite <- app_assoc.
    + unfold reported. rewrite emit_emit. reflexivity.
Qed.

(** If every status queried in the loop is neither [Created] nor the
    scheduled one, the loop collects nothing. *)
Lemma loop_none_created (names : list string) :
  forall (acc : list string) (st : State) (f : Flow (list string)) (st' : State),
    loop PE bi polls data scope collection names acc st = (f, st') ->
    (forall path query reply,
        EvGet path query reply ∈ events st' ->
        exists s, reply = status s
                  /\ s <> "Created" /\ s <> "Scheduled for Creation") ->
    f = Next acc.
Proof.
  induction names as [|n names IH]; intros acc st f st' Hloop Hall.
  - cbn in Hloop. now injection Hloop as <- <-.
  - assert (Hr : exists s, first_reply st n = status s
                           /\ s <> "Created" /\ s <> "Scheduled for Creation").
    { destruct (loop_first_query _ _ _ _ _ _ Hloop) as [evs Hevs].
      eapply Hall. rewrite Hevs. apply elem_of_app. right. left. }
    destruct Hr as (s & Hr & Hc & Hs).
    cbn [loop] in Hloop. rewrite (iteration_other _ _ _ _ Hc Hs Hr) in Hloop.
    exact (IH _ _ _ _ Hloop Hall).
Qed.

(** ** The build call *)

Lemma submit_nil (st : State) :
  submit bi data scope collection [] st
  = (Return, emit st [EvProgress "No indexes need built"]).
Proof. reflexivity. Qed.

(** A batch that is not empty is announced and submitted in one call. *)
Lemma submit_batch (b : list string) (st : State) :
  b <> [] ->
  exists (reply : BuildReply) (st' : State),
    submit bi data scope collection b st = (Return, st')
    /\ (events st'
          = events st
              ++ [EvProgress ("The following indexes need built: ["
                                +:+ String.concat " " b +:+ "]");
                  EvPost (build_path (buildReq data scope collection b))
                         (build_definition (buildReq data scope collection b))
                         reply]
        /\ HasError (Diagnostics_ st') = true
        \/ st' = emit st
                   [EvProgress ("The following indexes need built: ["
                                  +:+ String.concat " " b +:+ "]");
                    EvPost (build_path (buildReq data scope collection b))
                           (build_definition (buildReq data scope collection b))
                           reply;
                    EvProgress
                      "finished action invocation, Indexes will be built in the background."]).
Proof.
  intros Hb. unfold submit.
  destruct b as [|n b]; [contradiction|]. cbn [length Nat.eqb].
  rewrite Sprintf_need_built.
  unfold call, BuildDeferredIndexes, SendProgress. cbn [events Diagnostics_].
  destruct (on_Post bi _ _ _) as [res [e|]] eqn:Hpost.
  - eexists (res, Some e), _. split; [reflexivity|]. left.
    cbn [events Diagnostics_ Diagnostics_AddError]. rewrite <- app_assoc.
    split; [reflexivity | apply HasError_AddError].
  - eexists (res, None), _. split; [reflexivity|]. right.
    unfold emit. cbn [events Diagnostics_]. now rewrite <- !app_assoc.
Qed.

End Workflow.

(** ** The invocation *)

Section Invocation.
Variable PE : string -> string.
Variable bi : Service.
Variable polls : nat.
Variable req : InvokeRequest.

Abbreviation data := (config_data req).
Abbreviation scope := (config_scope req).
Abbreviation collection := (config_collection req).
Abbreviation the_loop names acc st :=
  (loop PE bi polls data scope collection names acc st).

(** Once the configuration is read without error, [Invoke] is the loop
    followed by the submission of its batch. *)
Lemma Invoke_configured :
  config_ok req ->
  Invoke PE bi polls req start
  = match the_loop (config_names req) [] (configured req) with
    | (Next b, st) => submit bi data scope collection b st
    | (Return, st) => (Return, st)
    | (Panic, st) => (Panic, st)
    end.
Proof.
  unfold config_ok, config_diagnostics, Invoke, config_names, config_scope,
    config_collection, config_data, configured, config_diagnostics, config_data.
  destruct (Config_Get req) as [d1 m]. cbn [fst snd].
  destruct (ElementsAs (mIndexNames m)) as [d2 names]. cbn [fst snd].
  intros Hok. unfold Diagnostics_Append, start. cbn [events Diagnostics_].
  rewrite Hok. rewrite HasError_Append in Hok.
  apply orb_false_iff in Hok as [-> _].
  destruct (loop _ _ _ _ _ _ _ _ _) as [[b| |] st]; reflexivity.
Qed.

(** Without that, it returns before doing anything. *)
Lemma Invoke_not_configured :
  ~ config_ok req ->
  exists ds : Diagnostics,
    Invoke PE bi polls req start = (Return, {| events := []; Diagnostics_ := ds |})
    /\ HasError ds = true.
Proof.
  unfold config_ok, config_diagnostics, Invoke, config_data.
  destruct (Config_Get req) as [d1 m]. cbn [fst snd].
  destruct (ElementsAs (mIndexNames m)) as [d2 names]. cbn [fst snd].
  intros Hno%not_false_is_true. unfold Diagnostics_Append, start.
  cbn [events Diagnostics_].
  destruct (HasError (Append [] d1)) eqn:H1; [now eexists|].
  rewrite Hno. now eexists.
Qed.

(** What the loop has done is part of what the invocation has done. *)
Lemma Invoke_after_loop (f : Flow (list string)) (st : State) :
  config_ok req ->
  the_loop (config_names req) [] (configured req) = (f, st) ->
  exists evs : list Event,
    events (snd (Invoke PE bi polls req start)) = events st ++ evs.
Proof.
  intros Hok Hloop. rewrite (Invoke_configured Hok), Hloop.
  destruct f as [b| |]; try (exists []; now rewrite app_nil_r).
  destruct b as [|n b].
  - rewrite submit_nil. now eexists.
  - destruct (submit_batch bi data scope collection (n :: b) st)
      as (reply & st' & Hs & Hst'); [discriminate|].
    rewrite Hs. cbn [snd]. destruct Hst' as [[-> _] | ->]; now eexists.
Qed.

Lemma build_calls_app (evs evs' : list Event) :
  build_calls (evs ++ evs') = build_calls evs ++ build_calls evs'.
Proof. apply List.filter_app. Qed.

(** The loop makes no build call. *)
Lemma loop_build_calls (names acc : list string) (st : State)
    (f : Flow (list string)) (st' : State) :
  the_loop names acc st = (f, st') ->
  build_calls (events st') = build_calls (events st).
Proof.
  intros (evs & -> & Hevs & _)%loop_events.
  rewrite build_calls_app.
  assert (build_calls evs = []) as ->; [|apply app_nil_r].
  induction Hevs as [|ev evs (n & _ & [[r ->] | [m ->]]) _ IH]; [reflexivity|..];
    exact IH.
Qed.

End Invocation.

(** ** The workflow *)

Ltac only_replies Hin :=
  apply list_elem_of_In in Hin; vm_compute in Hin;
  repeat (destruct Hin as [Hin|Hin]; [try discriminate Hin|]);
  [..|contradiction].

(** If every status queried by the invocation is [Created], its events
    are, for each name in turn, its status query and the report of it, then
    the announcement of the batch and the one build call, then at most the
    final message. *)
Lemma Invoke_created_at_once (PE : string -> string) (bi : Service) (polls : nat)
    (req : InvokeRequest) :
  config_ok req ->
  config_names req <> [] ->
  (forall path query reply,
      EvGet path query reply ∈ events (snd (Invoke PE bi polls req start)) ->
      reply = status "Created") ->
  exists (reply : BuildReply) (tail : list Event),
    build_calls (events (snd (Invoke PE bi polls req start)))
    = [build_call req (config_names req) reply]
    /\ IndexNames (config_buildReq req (config_names req)) = config_names req
    /\ events (snd (Invoke PE bi polls req start))
       = flat_map
           (fun n => report PE (config_data req) (config_scope req)
                            (config_collection req) n "Created")
           (config_names req)
         ++ [EvProgress ("The following indexes need built: ["
                           +:+ String.concat " " (config_names req) +:+ "]");
             build_call req (config_names req) reply]
         ++ tail
    /\ (tail = []
        \/ tail = [EvProgress
                     "finished action invocation, Indexes will be built in the background."]).
Proof.
  intros Hok Hnames Hall.
  destruct (loop PE bi polls (config_data req) (config_scope req)
              (config_collection req) (config_names req) [] (configured req))
    as [f st1] eqn:Hloop.
  destruct (Invoke_after_loop PE bi polls req f st1 Hok Hloop) as [evs Hevs].
  destruct (loop_all_created PE bi polls _ _ _ _ _ _ _ _ Hloop) as [-> ->].
  { intros path query reply Hin. apply (Hall path query). rewrite Hevs.
    apply elem_of_app. now left. }
  clear Hall Hevs.
  rewrite (Invoke_configured PE bi polls req Hok), Hloop. cbn [app].
  destruct (submit_batch bi (config_data req) (config_scope req)
              (config_collection req) (config_names req)
              (emit (configured req)
                 (flat_map (fun n => report PE (config_data req) (config_scope req)
                                       (config_collection req) n "Created")
                    (config_names req))) Hnames)
    as (reply & st' & -> & Hst').
  cbn [snd].
  assert (Hloopcalls : build_calls
            (flat_map (fun n => report PE (config_data req) (config_scope req)
                                  (config_collection req) n "Created")
               (config_names req)) = []).
  { generalize (config_names req). intros names.
    induction names as [|n names IH]; [reflexivity | exact IH]. }
  destruct Hst' as [[-> _] | ->]; cbn [emit events configured app].
  - exists reply, []. rewrite build_calls_app, Hloopcalls.
    split; [reflexivity|]. split; [reflexivity|]. split; [reflexivity | now left].
  - exists reply, [EvProgress
                     "finished action invocation, Indexes will be built in the background."].
    rewrite build_calls_app, Hloopcalls.
    split; [reflexivity|]. split; [reflexivity|]. split; [reflexivity | now right].
Qed.

(** C5.  For a configuration read without error: if every status queried
    by the invocation is neither [Created] nor the scheduled one, the loop
    leaves the batch empty, and the invocation makes no build call, ends with
    the progress message [No indexes need built], and returns without having
    added a diagnostic, so without error. *)
Theorem Invoke_none_created (PE : string -> string) (bi : Service) (polls : nat)
    (req : InvokeRequest) :
  config_ok req ->
  (forall path query reply,
      EvGet path query reply ∈ events (snd (Invoke PE bi polls req start)) ->
      exists s, reply = status s
                /\ s <> "Created" /\ s <> "Scheduled for Creation") ->
  fst (loop PE bi polls (config_data req) (config_scope req)
         (config_collection req) (config_names req) [] (configured req))
  = Next []
  /\ fst (Invoke PE bi polls req start) = Return
  /\ build_calls (events (snd (Invoke PE bi polls req start))) = []
  /\ (exists evs : list Event,
         events (snd (Invoke PE bi polls req start))
         = evs ++ [EvProgress "No indexes need built"])
  /\ Diagnostics_ (snd (Invoke PE bi polls req start)) = config_diagnostics req
  /\ HasError (Diagnostics_ (snd (Invoke PE bi polls req start))) = false.
Proof.
  intros Hok Hall.
  destruct (loop PE bi polls (config_data req) (config_scope req)
              (config_collection req) (config_names req) [] (configured req))
    as [f st1] eqn:Hloop.
  destruct (Invoke_after_loop PE bi polls req f st1 Hok Hloop) as [evs Hevs].
  assert (f = Next []) as ->.
  { apply (loop_none_created PE bi polls _ _ _ _ _ _ _ _ Hloop).
    intros path query reply Hin. apply (Hall path query). rewrite Hevs.
    apply elem_of_app. now left. }
  clear Hall Hevs evs.
  pose proof (loop_build_calls PE bi polls req _ _ _ _ _ Hloop) as Hcalls.
  destruct (loop_events PE bi polls _ _ _ _ _ _ _ _ Hloop) as (evs & _ & _ & Hdiag).
  cbn in Hdiag, Hcalls.
  rewrite (Invoke_configured PE bi polls req Hok), Hloop, submit_nil.
  cbn [fst snd emit events Diagnostics_].
  rewrite build_calls_app, Hcalls, Hdiag.
  repeat split; try reflexivity; [now eexists | exact Hok].
Qed.

(** Two indexes that are being built: nothing to build, no error. *)
Lemma Invoke_none_created_witness :
  build_calls
    (events (snd (Invoke doubles.noEscape (doubles.always "Building") 3
                    (doubles.config StringNull StringNull ["idx1"; "idx2"])
                    start))) = []
  /\ HasError
       (Diagnostics_
          (snd (Invoke doubles.noEscape (doubles.always "Building") 3
                  (doubles.config StringNull StringNull ["idx1"; "idx2"])
                  start))) = false.
Proof.
  destruct (Invoke_none_created doubles.noEscape (doubles.always "Building") 3
              (doubles.config StringNull StringNull ["idx1"; "idx2"]))
    as (_ & _ & Hcalls & _ & _ & Hdiag).
  - reflexivity.
  - intros path query reply Hin. exists "Building".
    only_replies Hin; injection Hin as _ _ <-; now repeat split.
  - now split.
Defined.

(** C4, as the code has it.  With an empty list of index names, read
    without error, the invocation makes no status query and no build call;
    it does not fail: its only event is the progress message
    [No indexes need built], and it returns without having added a
    diagnostic. *)
Theorem Invoke_no_names (PE : string -> string) (bi : Service) (polls : nat)
    (req : InvokeRequest) :
  config_ok req ->
  config_names req = [] ->
  Invoke PE bi polls req start
  = (Return, {| events := [EvProgress "No indexes need built"];
                Diagnostics_ := config_diagnostics req |})
  /\ status_queries (events (snd (Invoke PE bi polls req start))) = []
  /\ build_calls (events (snd (Invoke PE bi polls req start))) = []
  /\ HasError (Diagnostics_ (snd (Invoke PE bi polls req start))) = false.
Proof.
  intros Hok Hnames.
  rewrite (Invoke_configured PE bi polls req Hok), Hnames.
  cbn [loop]. rewrite submit_nil.
  repeat split; try reflexivity. exact Hok.
Qed.

Lemma Invoke_no_names_witness :
  Invoke doubles.noEscape (doubles.always "Created") 3
    (doubles.config StringNull StringNull []) start
  = (Return, {| events := [EvProgress "No indexes need built"];
                Diagnostics_ := [] |}).
Proof.
  apply (Invoke_no_names doubles.noEscape (doubles.always "Created") 3
           (doubles.config StringNull StringNull [])); reflexivity.
Defined.

(** C4, as stated, fails: the invocation with an empty list of index names
    returns with no diagnostic at all, so with no error. *)
Lemma Invoke_no_names_is_no_error :
  ~ (HasError
       (Diagnostics_
          (snd (Invoke doubles.noEscape (doubles.always "Created") 3
                  (doubles.config StringNull StringNull []) start))) = true)
  /\ Diagnostics_
       (snd (Invoke doubles.noEscape (doubles.always "Created") 3
               (doubles.config StringNull StringNull []) start)) = [].
Proof. split; [discriminate | reflexivity]. Qed.

(** C3.  Let the names be read without error, and let the loop have gone
    through the names before the Nth without returning.  If the status
    query of the Nth name fails, the invocation returns with the error
    [Get Index Build Status Failed], whose detail names that index and
    carries the error; it has made no build call; and that failed query is
    the last thing it has done: all the events before it belong to the
    names before the Nth, so no later index is queried. *)
Theorem Invoke_status_query_fails (PE : string -> string) (bi : Service)
    (polls : nat) (req : InvokeRequest) (pre : list string) (n : string)
    (post : list string) (acc : list string) (st1 : State)
    (res : option IndexBuildStatusResponse) (e : error) :
  config_ok req ->
  config_names req = pre ++ n :: post ->
  loop PE bi polls (config_data req) (config_scope req) (config_collection req)
       pre [] (configured req) = (Next acc, st1) ->
  on_Get bi (events st1)
    (status_path PE (statusReq (config_data req) (config_scope req)
                       (config_collection req) n))
    (status_params (statusReq (config_data req) (config_scope req)
                      (config_collection req) n))
  = (res, Some e) ->
  Invoke PE bi polls req start
  = (Return,
     {| events :=
          events st1
            ++ [poll PE (statusReq (config_data req) (config_scope req)
                           (config_collection req) n) (res, Some e)];
        Diagnostics_ :=
          config_diagnostics req
            ++ [{| severity := SeverityError;
                   Summary := "Get Index Build Status Failed";
                   Detail_ := "Cannot get index build status for index " +:+ n
                                +:+ ".  Error: " +:+ Error e +:+ LF |}] |})
  /\ HasError (Diagnostics_ (snd (Invoke PE bi polls req start))) = true
  /\ build_calls (events (snd (Invoke PE bi polls req start))) = []
  /\ Forall (fun ev => exists m, m ∈ pre
                /\ iteration_event PE (config_data req) (config_scope req)
                     (config_collection req) m ev)
            (events st1).
Proof.
  intros Hok Hnames Hpre Hfail.
  pose proof (loop_build_calls PE bi polls req _ _ _ _ _ Hpre) as Hcalls.
  destruct (loop_events PE bi polls _ _ _ _ _ _ _ _ Hpre) as (evs & Hevs & Hfor & Hdiag).
  cbn in Hcalls, Hevs, Hdiag. subst evs.
  assert (Hrun : Invoke PE bi polls req start
                 = (Return,
                    {| events :=
                         events st1
                           ++ [poll PE (statusReq (config_data req) (config_scope req)
                                          (config_collection req) n) (res, Some e)];
                       Diagnostics_ :=
                         config_diagnostics req
                           ++ [{| severity := SeverityError;
                                  Summary := "Get Index Build Status Failed";
                                  Detail_ := "Cannot get index build status for index "
                                               +:+ n +:+ ".  Error: " +:+ Error e +:+ LF |}] |})).
  { rewrite (Invoke_configured PE bi polls req Hok), Hnames, loop_app, Hpre.
    cbn [loop]. rewrite (iteration_failed PE bi polls _ _ _ _ _ _ _ _ Hfail).
    unfold Diagnostics_AddError, emit. cbn [events Diagnostics_].
    rewrite Hdiag, AddError_fresh by exact Hok. reflexivity. }
  rewrite Hrun. cbn [snd events Diagnostics_].
  split; [reflexivity|]. split.
  - rewrite HasError_app. cbn. apply orb_true_r.
  - split; [|exact Hfor]. rewrite build_calls_app, Hcalls. reflexivity.
Qed.

(** Four indexes, the status query of the third fails: the fourth is never
    queried and nothing is built. *)
Lemma Invoke_status_query_fails_witness :
  Invoke doubles.noEscape doubles.third_fails 3
    (doubles.config StringNull StringNull ["idx1"; "idx2"; "idx3"; "idx4"]) start
  = (Return,
     {| events :=
          report doubles.noEscape
            (config_data (doubles.config StringNull StringNull [])) "_default"
            "_default" "idx1" "Created"
          ++ report doubles.noEscape
               (config_data (doubles.config StringNull StringNull [])) "_default"
               "_default" "idx2" "Created"
          ++ [poll doubles.noEscape
                (statusReq (config_data (doubles.config StringNull StringNull []))
                   "_default" "_default" "idx3")
                (None, Some (errorString "connection refused"))];
        Diagnostics_ :=
          [{| severity := SeverityError;
              Summary := "Get Index Build Status Failed";
              Detail_ := "Cannot get index build status for index idx3.  Error: connection refused"
                           +:+ LF |}] |}).
Proof.
  destruct (Invoke_status_query_fails doubles.noEscape doubles.third_fails 3
              (doubles.config StringNull StringNull ["idx1"; "idx2"; "idx3"; "idx4"])
              ["idx1"; "idx2"] "idx3" ["idx4"] ["idx1"; "idx2"]
              (snd (loop doubles.noEscape doubles.third_fails 3
                      (config_data (doubles.config StringNull StringNull []))
                      "_default" "_default" ["idx1"; "idx2"] []
                      (configured (doubles.config StringNull StringNull []))))
              None (errorString "connection refused"))
    as (Hrun & _); [reflexivity | reflexivity | reflexivity | reflexivity |].
  rewrite Hrun. reflexivity.
Defined.



(** The whole invocation on that service: the build call lists the index. *)
Example Invoke_scheduled_once :
  events (snd (Invoke doubles.noEscape doubles.scheduled_once 3
                 (doubles.config StringNull StringNull ["idx1"]) start))
  = report doubles.noEscape
      (config_data (doubles.config StringNull StringNull ["idx1"]))
      "_default" "_default" "idx1" "Scheduled for Creation"
    ++ [poll doubles.noEscape
          (statusReq (config_data (doubles.config StringNull StringNull ["idx1"]))
             "_default" "_default" "idx1")
          (status "Created");
        EvProgress "The following indexes need built: [idx1]";
        build_call (doubles.config StringNull StringNull ["idx1"]) ["idx1"]
          (Some {| Error_ := None |}, None);
        EvProgress
          "finished action invocation, Indexes will be built in the background."].
Proof. reflexivity. Qed.

(** ** Scope and collection *)

Lemma status_params_lookup (r : IndexBuildStatusRequest) :
  status_params r !! "bucket" = Some (Bucket r)
  /\ status_params r !! "scope" = Some (Scope r)
  /\ status_params r !! "collection" = Some (Collection r).
Proof.
  unfold status_params. split; [|split]; reflexivity.
Qed.

Lemma build_definition_text (data : BuildIndexActionModel)
    (scope collection : string) (b : list string) :
  Definition_ (build_definition (buildReq data scope collection b))
  = "BUILD INDEX ON `" +:+ ValueString (BucketName data) +:+ "`.`" +:+ scope
      +:+ "`.`" +:+ collection +:+ "`(" +:+ String.concat ", " b +:+ ")".
Proof.
  unfold build_definition, buildReq. cbn [Definition_ bBucket bScope bCollection IndexNames].
  rewrite strings_Join_concat. reflexivity.
Qed.

(** Every status query and the build call of an invocation address the
    bucket, with the scope and the collection fixed when it starts. *)
Lemma Invoke_namespace (PE : string -> string) (bi : Service) (polls : nat)
    (req : InvokeRequest) (ev : Event) :
  ev ∈ events (snd (Invoke PE bi polls req start)) ->
  in_namespace (ValueString (BucketName (config_data req)))
    (config_scope req) (config_collection req) ev.
Proof.
  destruct (HasError (config_diagnostics req)) eqn:Hcfg.
  { destruct (Invoke_not_configured PE bi polls req) as (ds & -> & _).
    - unfold config_ok. now rewrite Hcfg.
    - intros Hin. inversion Hin. }
  rewrite (Invoke_configured PE bi polls req Hcfg).
  destruct (loop PE bi polls (config_data req) (config_scope req)
              (config_collection req) (config_names req) [] (configured req))
    as [f st1] eqn:Hloop.
  destruct (loop_events PE bi polls _ _ _ _ _ _ _ _ Hloop) as (evs & Hevs & Hfor & _).
  cbn [configured events app] in Hevs.
  assert (Hloopev : forall ev', ev' ∈ events st1 ->
            in_namespace (ValueString (BucketName (config_data req)))
              (config_scope req) (config_collection req) ev').
  { rewrite Hevs. intros ev' Hin.
    rewrite Forall_forall in Hfor.
    destruct (Hfor ev' Hin) as (n & _ & [[r ->] | [m ->]]); [|exact I].
    apply status_params_lookup. }
  destruct f as [b| |]; [|exact (Hloopev ev)..].
  destruct b as [|n b].
  - rewrite submit_nil. cbn [snd emit events].
    intros [Hin | Hin]%elem_of_app; [now apply Hloopev|].
    apply list_elem_of_singleton in Hin as ->. exact I.
  - destruct (submit_batch bi (config_data req) (config_scope req)
                (config_collection req) (n :: b) st1)
      as (reply & st' & -> & Hst'); [discriminate|].
    cbn [snd].
    assert (Hst : exists tail, events st'
               = events st1
                   ++ EvProgress ("The following indexes need built: ["
                                    +:+ String.concat " " (n :: b) +:+ "]")
                   :: EvPost (build_path (buildReq (config_data req) (config_scope req)
                                            (config_collection req) (n :: b)))
                             (build_definition
                                (buildReq (config_data req) (config_scope req)
                                   (config_collection req) (n :: b))) reply
                   :: tail
               /\ Forall (fun ev' => exists m, ev' = EvProgress m) tail).
    { destruct Hst' as [[-> _] | ->]; eexists; (split; [reflexivity|]);
        repeat constructor. now eexists. }
    destruct Hst as (tail & -> & Htail).
    intros [Hin | Hin]%elem_of_app; [now apply Hloopev|].
    apply elem_of_cons in Hin as [-> | Hin]; [exact I|].
    apply elem_of_cons in Hin as [-> | Hin].
    + exists (n :: b). apply build_definition_text.
    + rewrite Forall_forall in Htail. destruct (Htail ev Hin) as [m ->]. exact I.
Qed.

(** C7.  When scope and collection are both null in the configuration, the
    invocation works on [_default] for both: these two values are fixed
    before the loop, the loop and the submission of the batch are run on
    them, and every status query has them as its [scope] and [collection]
    parameters, and the statement of the build call is on
    [`bucket`.`_default`.`_default`]. *)
Theorem Invoke_default_namespace (PE : string -> string) (bi : Service)
    (polls : nat) (req : InvokeRequest) :
  ScopeName (config_data req) = StringNull ->
  CollectionName (config_data req) = StringNull ->
  (forall ev : Event,
      ev ∈ events (snd (Invoke PE bi polls req start)) ->
      in_namespace (ValueString (BucketName (config_data req)))
        "_default" "_default" ev)
  /\ (config_ok req ->
      Invoke PE bi polls req start
      = match loop PE bi polls (config_data req) "_default" "_default"
                (config_names req) [] (configured req) with
        | (Next b, st) => submit bi (config_data req) "_default" "_default" b st
        | (Return, st) => (Return, st)
        | (Panic, st) => (Panic, st)
        end).
Proof.
  intros Hscope Hcoll.
  assert (Hs : config_scope req = "_default")
    by (unfold config_scope; now rewrite Hscope).
  assert (Hc : config_collection req = "_default")
    by (unfold config_collection; now rewrite Hcoll).
  split.
  - intros ev Hin. rewrite <- Hs at 1. rewrite <- Hc.
    now apply (Invoke_namespace PE bi polls req).
  - intros Hok. rewrite (Invoke_configured PE bi polls req Hok).
    now rewrite Hs, Hc.
Qed.

(** An index that is scheduled, then created, with scope and collection left
    out: its two status queries and the build call are on [_default]. *)
Lemma Invoke_default_namespace_witness :
  Forall (in_namespace "b" "_default" "_default")
    (events (snd (Invoke doubles.noEscape doubles.scheduled_once 3
                    (doubles.config StringNull StringNull ["idx1"]) start))).
Proof.
  apply Forall_forall.
  exact (proj1 (Invoke_default_namespace doubles.noEscape doubles.scheduled_once 3
                  (doubles.config StringNull StringNull ["idx1"])
                  eq_refl eq_refl)).
Defined.

(** C10.  Scope and collection are defaulted each on its own, and only
    when null: whatever the other one is, a null scope gives [_default] and
    a scope that is not null is taken as it is, the empty string included,
    and the same for the collection; every status query of the invocation
    has the two values so obtained as its [scope] and [collection]
    parameters, and the build statement is on them, so on empty names
    between the backticks for empty strings.  A status is compared as it is
    with [Created] and [Scheduled for Creation]: on any other string, however
    close, the iteration reports the status, waits for nothing, leaves the
    index out of the batch and adds no diagnostic. *)
Theorem Invoke_verbatim (PE : string -> string) (bi : Service) (polls : nat) :
  (forall v : String_, v <> StringNull -> or_default v = ValueString v)
  /\ (forall (req : InvokeRequest) (ev : Event),
         ev ∈ events (snd (Invoke PE bi polls req start)) ->
         in_namespace (ValueString (BucketName (config_data req)))
           (match ScopeName (config_data req) with
            | StringNull => "_default"
            | StringUnknown => ""
            | StringValue s => s
            end)
           (match CollectionName (config_data req) with
            | StringNull => "_default"
            | StringUnknown => ""
            | StringValue c => c
            end)
           ev)
  /\ (forall (req : InvokeRequest) (s c : string),
         ScopeName (config_data req) = StringValue s ->
         CollectionName (config_data req) = StringValue c ->
         forall ev : Event,
           ev ∈ events (snd (Invoke PE bi polls req start)) ->
           in_namespace (ValueString (BucketName (config_data req))) s c ev)
  /\ (forall (data : BuildIndexActionModel) (b : list string),
         Definition_ (build_definition (buildReq data "" "" b))
         = "BUILD INDEX ON `" +:+ ValueString (BucketName data)
             +:+ "`.``.``(" +:+ String.concat ", " b +:+ ")")
  /\ (forall (data : BuildIndexActionModel) (scope collection : string)
             (acc : list string) (n s : string) (st : State),
         s <> "Created" -> s <> "Scheduled for Creation" ->
         on_Get bi (events st)
           (status_path PE (statusReq data scope collection n))
           (status_params (statusReq data scope collection n)) = status s ->
         iteration PE bi polls data scope collection acc n st
         = (Next acc,
            {| events := events st ++ report PE data scope collection n s;
               Diagnostics_ := Diagnostics_ st |})).
Proof.
  assert (Heach : forall (req : InvokeRequest) (ev : Event),
             ev ∈ events (snd (Invoke PE bi polls req start)) ->
             in_namespace (ValueString (BucketName (config_data req)))
               (match ScopeName (config_data req) with
                | StringNull => "_default"
                | StringUnknown => ""
                | StringValue s => s
                end)
               (match CollectionName (config_data req) with
                | StringNull => "_default"
                | StringUnknown => ""
                | StringValue c => c
                end)
               ev).
  { intros req ev Hin.
    pose proof (Invoke_namespace PE bi polls req ev Hin) as Hns.
    unfold config_scope, config_collection, or_default in Hns.
    destruct (ScopeName (config_data req));
      destruct (CollectionName (config_data req)); exact Hns. }
  repeat apply conj.
  - intros [| |s] Hv; [contradiction | reflexivity | reflexivity].
  - exact Heach.
  - intros req s c Hs Hc ev Hin.
    pose proof (Heach req ev Hin) as Hns. now rewrite Hs, Hc in Hns.
  - intros data b. now rewrite build_definition_text.
  - intros data scope collection acc n s st Hcreated Hsched Hr.
    apply (iteration_other PE bi polls data scope collection acc n s st
             Hcreated Hsched Hr).
Qed.

(** A null scope beside a given collection, a given scope beside a null
    collection, and both given as empty strings, with a status in lower
    case: each status query carries the given value as it is and [_default]
    for the null one, and the index is left out without error. *)
Lemma Invoke_verbatim_witness :
  Forall (in_namespace "b" "_default" "c1")
    (events (snd (Invoke doubles.noEscape (doubles.always "Created") 3
                    (doubles.config StringNull (StringValue "c1") ["idx1"])
                    start)))
  /\ Forall (in_namespace "b" "s1" "_default")
       (events (snd (Invoke doubles.noEscape (doubles.always "Created") 3
                       (doubles.config (StringValue "s1") StringNull ["idx1"])
                       start)))
  /\ Forall (in_namespace "b" "" "")
       (events (snd (Invoke doubles.noEscape (doubles.always "created") 3
                       (doubles.config (StringValue "") (StringValue "") ["idx1"])
                       start)))
  /\ iteration doubles.noEscape (doubles.always "created") 3
       (config_data (doubles.config (StringValue "") (StringValue "") ["idx1"]))
       "" "" [] "idx1" start
     = (Next [],
        {| events :=
             report doubles.noEscape
               (config_data (doubles.config (StringValue "") (StringValue "")
                               ["idx1"]))
               "" "" "idx1" "created";
           Diagnostics_ := [] |})
  /\ or_default (StringValue "") = "".
Proof.
  destruct (Invoke_verbatim doubles.noEscape (doubles.always "Created") 3)
    as (_ & Heach & _).
  destruct (Invoke_verbatim doubles.noEscape (doubles.always "created") 3)
    as (Hdefault & _ & Hboth & _ & Hother).
  repeat apply conj.
  - apply Forall_forall.
    exact (Heach (doubles.config StringNull (StringValue "c1") ["idx1"])).
  - apply Forall_forall.
    exact (Heach (doubles.config (StringValue "s1") StringNull ["idx1"])).
  - apply Forall_forall.
    exact (Hboth (doubles.config (StringValue "") (StringValue "") ["idx1"])
             "" "" eq_refl eq_refl).
  - apply (Hother
             (config_data (doubles.config (StringValue "") (StringValue "") ["idx1"]))
             "" "" [] "idx1" "created" start);
      [discriminate | discriminate | reflexivity].
  - apply (Hdefault (StringValue "")). discriminate.
Defined.

(** A given collection beside a null scope reaches the wire as it is: the
    status query and the build statement of one created index. *)
Example Invoke_mixed_namespace :
  events (snd (Invoke doubles.noEscape (doubles.always "Created") 3
                 (doubles.config StringNull (StringValue "c1") ["idx1"]) start))
  = [EvGet
       "v4/organizations/org/projects/proj/clusters/cluster/queryService/indexBuildStatus/idx1"
       (<["bucket" := "b"]>
          (<["scope" := "_default"]> (<["collection" := "c1"]> ∅)))
       (status "Created");
     EvProgress "Index: idx1, Status: Created";
     EvProgress "The following indexes need built: [idx1]";
     EvPost "v4/organizations/org/projects/proj/clusters/cluster/queryService/indexes"
       {| Definition_ := "BUILD INDEX ON `b`.`_default`.`c1`(idx1)" |}
       (Some {| Error_ := None |}, None);
     EvProgress
       "finished action invocation, Indexes will be built in the background."].
Proof. reflexivity. Qed.

(** The statement built on empty scope and collection, for one index. *)
Example build_definition_empty_namespace :
  Definition_
    (build_definition
       (config_buildReq (doubles.config (StringValue "") (StringValue "") ["idx1"])
          ["idx1"]))
  = "BUILD INDEX ON `b`.``.``(idx1)".
Proof. reflexivity. Qed.

(** ** The batch across waits *)

Section AcrossWaits.
Variable PE : string -> string.
Variable bi : Service.
Variable polls : nat.
Variable data : BuildIndexActionModel.
Variables scope collection : string.

(** A wait that returns a status returns the one of its last poll. *)
Lemma WaitForScheduledIndexCreation_status (ibReq : IndexBuildStatusRequest)
    (h : list Event) (r : IndexBuildStatusResponse) (h' : list Event) :
  WaitForScheduledIndexCreation PE bi polls ibReq h = ((Some r, None), h') ->
  exists evs : list Event,
    h' = h ++ evs ++ [poll PE ibReq (Some r, None)]
    /\ (Some r, None) <> status "Scheduled for Creation".
Proof.
  intros [k [(_ & _ & [=]) | (last & _ & Hlast & -> & _ & Hres)]]%WaitForScheduledIndexCreation_polls.
  assert (last = (Some r, None)) as ->.
  { destruct last as [[r'|] [e|]]; cbn in Hres; congruence. }
  exists (map (poll PE ibReq) (repeat (status "Scheduled for Creation") k)).
  rewrite map_app. split; [reflexivity | exact Hlast].
Qed.

(** If every status queried in the loop is [Created] or, before that, the
    scheduled one, and the loop gets to its end, the batch is the list of
    the names in their order, whichever of them had to be waited for. *)
Lemma loop_all_finally_created (names : list string) :
  forall (acc : list string) (st : State) (b : list string) (st' : State),
    loop PE bi polls data scope collection names acc st = (Next b, st') ->
    (forall path query reply,
        EvGet path query reply ∈ events st' ->
        reply = status "Created" \/ reply = status "Scheduled for Creation") ->
    b = acc ++ names.
Proof.
  induction names as [|n names IH]; intros acc st b st' Hloop Hall.
  - cbn in Hloop. injection Hloop as <- _. now rewrite app_nil_r.
  - destruct (loop_first_query _ _ _ _ _ _ _ _ _ _ _ _ Hloop) as [evs Hevs].
    assert (Hfirst : on_Get bi (events st)
                       (status_path PE (statusReq data scope collection n))
                       (status_params (statusReq data scope collection n))
                     = status "Created"
                     \/ on_Get bi (events st)
                          (status_path PE (statusReq data scope collection n))
                          (status_params (statusReq data scope collection n))
                        = status "Scheduled for Creation").
    { eapply Hall. rewrite Hevs. apply elem_of_app. right. left. }
    clear evs Hevs. cbn [loop] in Hloop.
    destruct Hfirst as [Hr | Hr].
    + rewrite (iteration_created _ _ _ _ _ _ _ _ _ Hr) in Hloop.
      rewrite (IH _ _ _ _ Hloop Hall). now rewrite <- app_assoc.
    + rewrite (iteration_scheduled _ _ _ _ _ _ _ _ _ Hr) in Hloop.
      cbv zeta in Hloop.
      destruct (WaitForScheduledIndexCreation _ _ _ _ _) as [[[r|] [e|]] h'] eqn:Hw;
        cbn [fst snd] in Hloop; try discriminate Hloop.
      apply WaitForScheduledIndexCreation_status in Hw as (evs & -> & Hlast).
      destruct (loop_events _ _ _ _ _ _ _ _ _ _ _ Hloop) as (evs' & Hevs' & _).
      cbn [events] in Hevs'.
      assert (Hr' : (Some r, None) = status "Created").
      { destruct (Hall (status_path PE (statusReq data scope collection n))
                       (status_params (statusReq data scope collection n))
                       (Some r, None)) as [Hc | Hs]; [|exact Hc | contradiction].
        rewrite Hevs'. apply elem_of_app. left.
        apply elem_of_app. right. apply elem_of_app. right. left. }
      injection Hr' as ->. cbn [Status String.eqb Ascii.eqb Bool.eqb] in Hloop.
      rewrite (IH _ _ _ _ Hloop Hall). now rewrite <- app_assoc.
Qed.

End AcrossWaits.

(** The same for the invocation: if the loop gets to its end and every
    status it has queried is [Created] or the scheduled one, the one build
    call lists the names in their order. *)
Lemma Invoke_all_finally_created (PE : string -> string) (bi : Service)
    (polls : nat) (req : InvokeRequest) (b : list string) (st1 : State) :
  config_ok req ->
  config_names req <> [] ->
  loop PE bi polls (config_data req) (config_scope req) (config_collection req)
       (config_names req) [] (configured req) = (Next b, st1) ->
  (forall path query reply,
      EvGet path query reply ∈ events st1 ->
      reply = status "Created" \/ reply = status "Scheduled for Creation") ->
  exists reply : BuildReply,
    build_calls (events (snd (Invoke PE bi polls req start)))
    = [build_call req (config_names req) reply].
Proof.
  intros Hok Hnames Hloop Hall.
  pose proof (loop_all_finally_created PE bi polls _ _ _ _ _ _ _ _ Hloop Hall) as Hb.
  cbn [app] in Hb. subst b.
  pose proof (loop_build_calls PE bi polls req _ _ _ _ _ Hloop) as Hcalls.
  rewrite (Invoke_configured PE bi polls req Hok), Hloop.
  destruct (submit_batch bi (config_data req) (config_scope req)
              (config_collection req) (config_names req) st1 Hnames)
    as (reply & st' & -> & Hst').
  exists reply. cbn [snd].
  destruct Hst' as [[-> _] | ->]; cbn [emit events];
    now rewrite build_calls_app, Hcalls.
Qed.

(** ** The client behind the service *)

(** The action on the rejecting client: the error of the client, as [Do]
    renders it, ends up in the diagnostic, after the name of the index. *)
Example Invoke_rejected :
  Invoke doubles.noEscape
    (of_client doubles.plainURL (fun def => inr (Definition_ def))
       doubles.plainRequest doubles.unauthorizedPayload
       (fun _ => DecodeEOF) (fun _ => DecodeEOF) doubles.rejecting)
    3 (doubles.config StringNull StringNull ["idx1"; "idx2"]) start
  = (Return,
     {| events :=
          [poll doubles.noEscape
             (statusReq (config_data (doubles.config StringNull StringNull []))
                "_default" "_default" "idx1")
             (None,
              Some (wrapError "unauthorized: no token (status 401)"
                      (apiErr {| Code := "unauthorized"; Message := "no token";
                                 Detail := None |})))];
        Diagnostics_ :=
          [{| severity := SeverityError;
              Summary := "Get Index Build Status Failed";
              Detail_ :=
                "Cannot get index build status for index idx1.  Error: unauthorized: no token (status 401)"
                  +:+ LF |}] |}).
Proof. reflexivity. Qed.

(** ** The batch of the created indexes *)

(** C1.  For a configuration read without error whose list of index names
    is not empty.  If every status queried by the invocation is [Created],
    the invocation makes exactly one build call; its request lists exactly
    the requested names, in their order, which is the order in which they
    were seen [Created]: the events are, for each name in turn, its status
    query and the report of it, then the announcement of the batch and the
    build call, then at most the final message.  The same one build call is
    made when some of the names were first seen scheduled and [Created] at
    the end of their wait: if the loop gets to its end and every status it
    has queried is [Created] or the scheduled one, the build call lists the
    names in their order. *)
Theorem Invoke_all_created (PE : string -> string) (bi : Service) (polls : nat)
    (req : InvokeRequest) :
  config_ok req ->
  config_names req <> [] ->
  ((forall path query reply,
       EvGet path query reply ∈ events (snd (Invoke PE bi polls req start)) ->
       reply = status "Created") ->
   exists (reply : BuildReply) (tail : list Event),
     build_calls (events (snd (Invoke PE bi polls req start)))
     = [build_call req (config_names req) reply]
     /\ IndexNames (config_buildReq req (config_names req)) = config_names req
     /\ events (snd (Invoke PE bi polls req start))
        = flat_map
            (fun n => report PE (config_data req) (config_scope req)
                             (config_collection req) n "Created")
            (config_names req)
          ++ [EvProgress ("The following indexes need built: ["
                            +:+ String.concat " " (config_names req) +:+ "]");
              build_call req (config_names req) reply]
          ++ tail
     /\ (tail = []
         \/ tail = [EvProgress
                      "finished action invocation, Indexes will be built in the background."]))
  /\ (forall (b : list string) (st1 : State),
         loop PE bi polls (config_data req) (config_scope req)
              (config_collection req) (config_names req) [] (configured req)
         = (Next b, st1) ->
         (forall path query reply,
             EvGet path query reply ∈ events st1 ->
             reply = status "Created" \/ reply = status "Scheduled for Creation") ->
         b = config_names req
         /\ exists reply : BuildReply,
              build_calls (events (snd (Invoke PE bi polls req start)))
              = [build_call req (config_names req) reply]).
Proof.
  intros Hok Hnames. split.
  - now apply Invoke_created_at_once.
  - intros b st1 Hloop Hall. split.
    + exact (loop_all_finally_created PE bi polls _ _ _ _ _ _ _ _ Hloop Hall).
    + exact (Invoke_all_finally_created PE bi polls req b st1 Hok Hnames Hloop Hall).
Qed.

(** Two indexes, both created: one build call for [idx1], [idx2]; and the
    same when [idx1] is first seen scheduled. *)
Lemma Invoke_all_created_witness :
  (exists reply : BuildReply,
      build_calls
        (events (snd (Invoke doubles.noEscape (doubles.always "Created") 3
                        (doubles.config StringNull StringNull ["idx1"; "idx2"])
                        start)))
      = [build_call (doubles.config StringNull StringNull ["idx1"; "idx2"])
           ["idx1"; "idx2"] reply])
  /\ (exists reply : BuildReply,
         build_calls
           (events (snd (Invoke doubles.noEscape doubles.scheduled_once 3
                           (doubles.config StringNull StringNull ["idx1"; "idx2"])
                           start)))
         = [build_call (doubles.config StringNull StringNull ["idx1"; "idx2"])
              ["idx1"; "idx2"] reply]).
Proof.
  split.
  - destruct (Invoke_all_created doubles.noEscape (doubles.always "Created") 3
                (doubles.config StringNull StringNull ["idx1"; "idx2"]))
      as [Hat_once _]; [reflexivity | discriminate |].
    destruct Hat_once as (reply & tail & Hcalls & _).
    + intros path query reply Hin. only_replies Hin; now injection Hin as _ _ <-.
    + now exists reply.
  - destruct (Invoke_all_created doubles.noEscape doubles.scheduled_once 3
                (doubles.config StringNull StringNull ["idx1"; "idx2"]))
      as [_ Hwaited]; [reflexivity | discriminate |].
    destruct (Hwaited ["idx1"; "idx2"]
                (snd (loop doubles.noEscape doubles.scheduled_once 3
                        (config_data (doubles.config StringNull StringNull []))
                        "_default" "_default" ["idx1"; "idx2"] []
                        (configured (doubles.config StringNull StringNull [])))))
      as [_ [reply Hcalls]].
    + reflexivity.
    + intros path query reply Hin.
      only_replies Hin; injection Hin as _ _ <-; [right | left | left];
        reflexivity.
    + now exists reply.
Defined.

(** * Further properties of the code *)

(** ** Authenticators *)

Section Authenticators.
Variable canon : string -> string.

(** With a key and a secret under header names of different canonical
    form, [APIKeySecretAuth.Apply] leaves both in the request, each to be
    read back under its name, touches no other header and no other part of
    the request, and reports no error. *)
Theorem APIKeySecretAuth_Apply_both (a : APIKeySecretAuth) (req : Request) :
  Key a <> "" -> Secret a <> "" ->
  canon (keyHeader a) <> canon (secretHeader a) ->
  snd (APIKeySecretAuth_Apply canon a req) = None
  /\ Header_Get_canonical canon
       (Header (fst (APIKeySecretAuth_Apply canon a req))) (keyHeader a) = Key a
  /\ Header_Get_canonical canon
       (Header (fst (APIKeySecretAuth_Apply canon a req))) (secretHeader a) = Secret a
  /\ (forall k : string,
         k <> canon (keyHeader a) -> k <> canon (secretHeader a) ->
         Header (fst (APIKeySecretAuth_Apply canon a req)) !! k = Header req !! k)
  /\ Method (fst (APIKeySecretAuth_Apply canon a req)) = Method req
  /\ URL (fst (APIKeySecretAuth_Apply canon a req)) = URL req
  /\ Body (fst (APIKeySecretAuth_Apply canon a req)) = Body req.
Proof.
  intros Hk Hs Hne. unfold APIKeySecretAuth_Apply.
  apply String.eqb_neq in Hk as Hk', Hs as Hs'. rewrite Hk', Hs'.
  cbn [andb fst snd Header Method URL Body set_header_canonical].
  unfold Header_Get_canonical, Header_Set_canonical.
  split; [reflexivity|]. split; [|split; [|split]].
  - rewrite lookup_insert_ne by congruence. now rewrite lookup_insert_eq.
  - now rewrite lookup_insert_eq.
  - intros k Hk1 Hk2. now rewrite !lookup_insert_ne by congruence.
  - now repeat split.
Qed.

(** When the two header names have the same canonical form, the secret is
    written over the key: the header holds the secret alone. *)
Theorem APIKeySecretAuth_Apply_same_header (a : APIKeySecretAuth) (req : Request) :
  Key a <> "" -> Secret a <> "" ->
  canon (keyHeader a) = canon (secretHeader a) ->
  Header (fst (APIKeySecretAuth_Apply canon a req)) !! canon (keyHeader a)
  = Some [Secret a]
  /\ Header_Get_canonical canon
       (Header (fst (APIKeySecretAuth_Apply canon a req))) (keyHeader a) = Secret a.
Proof.
  intros Hk Hs Heq. unfold APIKeySecretAuth_Apply.
  apply String.eqb_neq in Hk as Hk', Hs as Hs'. rewrite Hk', Hs'.
  cbn [andb fst Header set_header_canonical].
  unfold Header_Get_canonical, Header_Set_canonical.
  rewrite Heq. now rewrite lookup_insert_eq.
Qed.

(** Neither authenticator of the package ever fails, and neither ever
    writes an empty value: under every header name the values are as
    before, or they are one value that is not empty. *)
Theorem Apply_never_empty (req : Request) (k : string) :
  (forall a : BearerTokenAuth,
      snd (BearerTokenAuth_Apply a req) = None
      /\ (Header (fst (BearerTokenAuth_Apply a req)) !! k = Header req !! k
          \/ exists v : string,
               v <> ""
               /\ Header (fst (BearerTokenAuth_Apply a req)) !! k = Some [v]))
  /\ (forall a : APIKeySecretAuth,
         snd (APIKeySecretAuth_Apply canon a req) = None
         /\ (Header (fst (APIKeySecretAuth_Apply canon a req)) !! k
             = Header req !! k
             \/ exists v : string,
                  v <> ""
                  /\ Header (fst (APIKeySecretAuth_Apply canon a req)) !! k
                     = Some [v])).
Proof.
  split.
  - intros a. unfold BearerTokenAuth_Apply.
    destruct (String.eqb_spec (Token a) "") as [Ht|Ht]; cbn [fst snd];
      (split; [reflexivity|]); [now left|].
    cbn [set_header Header]. unfold Header_Set.
    destruct (decide ("Authorization" = k)) as [<-|Hk].
    + right. exists ("Bearer " +:+ Token a). split; [discriminate|].
      apply lookup_insert_eq.
    + left. now apply lookup_insert_ne.
  - intros a. unfold APIKeySecretAuth_Apply.
    destruct (String.eqb_spec (Key a) "") as [Hk|Hk];
      destruct (String.eqb_spec (Secret a) "") as [Hs|Hs];
      cbn [andb fst snd set_header_canonical Header];
      (split; [reflexivity|]); unfold Header_Set_canonical.
    + now left.
    + destruct (decide (canon (secretHeader a) = k)) as [<-|Hne].
      * right. exists (Secret a). split; [exact Hs | apply lookup_insert_eq].
      * left. now apply lookup_insert_ne.
    + destruct (decide (canon (keyHeader a) = k)) as [<-|Hne].
      * right. exists (Key a). split; [exact Hk | apply lookup_insert_eq].
      * left. now apply lookup_insert_ne.
    + destruct (decide (canon (secretHeader a) = k)) as [<-|Hne].
      * right. exists (Secret a). split; [exact Hs | apply lookup_insert_eq].
      * rewrite lookup_insert_ne by exact Hne.
        destruct (decide (canon (keyHeader a) = k)) as [<-|Hne'].
        -- right. exists (Key a). split; [exact Hk | apply lookup_insert_eq].
        -- left. now apply lookup_insert_ne.
Qed.

End Authenticators.

Lemma APIKeySecretAuth_Apply_both_witness :
  Header_Get_canonical doubles2.canonical
    (Header (fst (APIKeySecretAuth_Apply doubles2.canonical
                    {| Key := "k1"; Secret := "s1"; HeaderKeyName := "";
                       HeaderSecretName := "X-Api-Secret" |}
                    doubles2.emptyRequest)))
    "X-Client-Id" = "k1".
Proof.
  refine (proj1 (proj2 (APIKeySecretAuth_Apply_both doubles2.canonical
                          {| Key := "k1"; Secret := "s1"; HeaderKeyName := "";
                             HeaderSecretName := "X-Api-Secret" |}
                          doubles2.emptyRequest _ _ _))); discriminate.
Defined.

Lemma APIKeySecretAuth_Apply_same_header_witness :
  Header_Get_canonical doubles2.canonical
    (Header (fst (APIKeySecretAuth_Apply doubles2.canonical
                    {| Key := "k1"; Secret := "s1"; HeaderKeyName := "X-Api";
                       HeaderSecretName := "X-Api" |}
                    doubles2.emptyRequest)))
    "X-Api" = "s1".
Proof.
  refine (proj2 (APIKeySecretAuth_Apply_same_header doubles2.canonical
                   {| Key := "k1"; Secret := "s1"; HeaderKeyName := "X-Api";
                      HeaderSecretName := "X-Api" |}
                   doubles2.emptyRequest _ _ eq_refl)); discriminate.
Defined.

(** ** Construction of a client *)

Section Construction.
Variable url_Parse : string -> error + string.
Variable defaultHTTP : Request -> error + Response.

(** A base URL given without [http] in front is parsed with [https://] in
    front: writing the scheme by hand gives the same client. *)
Theorem WithBaseURL_adds_https (raw : string) (c : Client) :
  raw <> "" ->
  String.prefix "http" raw = false ->
  WithBaseURL url_Parse raw c = WithBaseURL url_Parse ("https://" +:+ raw) c.
Proof.
  intros Hraw Hprefix. unfold WithBaseURL.
  apply String.eqb_neq in Hraw. rewrite Hraw, Hprefix. reflexivity.
Qed.

(** No option of the package takes a base URL away. *)
Lemma provided_keeps_BaseURL (o : Client -> Client) (c : Client) :
  provided url_Parse o -> is_Some (BaseURL c) -> is_Some (BaseURL (o c)).
Proof.
  intros [raw|rhc|a|ua|id|id] Hc; try exact Hc.
  unfold WithBaseURL. destruct (raw =? "")%string; [exact Hc|].
  destruct (url_Parse _); [exact Hc | now eexists].
Qed.

(** When the default base URL parses, a client made by [NewClient] from
    options of the package has a base URL, whatever the options and their
    order: an empty or unparsable [WithBaseURL] leaves the one before. *)
Theorem NewClient_has_BaseURL (opts : list (Client -> Client)) (base : string) :
  url_Parse DefaultBaseURL = inr base ->
  Forall (provided url_Parse) opts ->
  is_Some (BaseURL (NewClient url_Parse defaultHTTP opts)).
Proof.
  intros Hbase Hopts. unfold NewClient.
  assert (Hstart : is_Some (BaseURL (defaultClient url_Parse defaultHTTP))).
  { unfold defaultClient. cbn [BaseURL]. rewrite Hbase. now eexists. }
  revert Hstart. generalize (defaultClient url_Parse defaultHTTP).
  induction Hopts as [|o opts Ho _ IH]; intros c Hc; [exact Hc|].
  cbn [fold_left]. apply IH. now apply provided_keeps_BaseURL.
Qed.

(** A [WithBaseURL] whose text does not parse changes nothing, without a
    word: the client keeps the base URL it had. *)
Theorem WithBaseURL_unparsable (raw : string) (c : Client) (err : error) :
  url_Parse (if String.prefix "http" raw then raw else "https://" +:+ raw)
  = inl err ->
  WithBaseURL url_Parse raw c = c.
Proof.
  intros Hparse. unfold WithBaseURL.
  destruct (raw =? "")%string; [reflexivity|]. now rewrite Hparse.
Qed.

End Construction.

Lemma WithBaseURL_adds_https_witness :
  BaseURL (WithBaseURL doubles2.parseAll "api.capella.test" doubles.rejecting)
  = Some "https://api.capella.test".
Proof.
  rewrite (WithBaseURL_adds_https doubles2.parseAll "api.capella.test"
             doubles.rejecting); [reflexivity | discriminate | reflexivity].
Defined.

Lemma NewClient_has_BaseURL_witness :
  is_Some
    (BaseURL
       (NewClient doubles2.parseHttps doubles2.refusing
          [WithBaseURL doubles2.parseHttps "";
           WithUserAgent "ua";
           WithBaseURL doubles2.parseHttps "http://plain.test"])).
Proof.
  apply (NewClient_has_BaseURL doubles2.parseHttps doubles2.refusing
           [WithBaseURL doubles2.parseHttps "";
            WithUserAgent "ua";
            WithBaseURL doubles2.parseHttps "http://plain.test"]
           DefaultBaseURL).
  - reflexivity.
  - repeat constructor.
Defined.

Lemma WithBaseURL_unparsable_witness :
  WithBaseURL doubles2.parseHttps "http://plain.test" doubles.rejecting
  = doubles.rejecting.
Proof.
  exact (WithBaseURL_unparsable doubles2.parseHttps "http://plain.test"
           doubles.rejecting (errorString "parse error") eq_refl).
Defined.

(** ** [Do]: when it succeeds, and what it returns *)

Section DoOutcome.
Context {B O : Type}.
Variable buildURL : string -> string -> gmap string string -> error + string.
Variable json_Encode : B -> error + string.
Variable NewRequest : string -> string -> option string -> error + Request.
Variable unmarshal : string -> option apiError.
Variable decode : string -> Decoded O.

Abbreviation the_Do :=
  (Do buildURL json_Encode NewRequest unmarshal decode).
Abbreviation the_prepare := (prepare buildURL json_Encode NewRequest).

(** [Do] returns a nil error exactly when the request could be prepared,
    the transport answered, the status code is in 200..299 and, if a result
    is asked for, decoding it did not fail (an empty body is no failure). *)
Theorem Do_succeeds_iff (c : Client) (method p : string)
    (query : gmap string string) (body : option B) (out : bool) :
  snd (fst (the_Do c method p query body out)) = None
  <-> exists (req : Request) (resp : Response),
        the_prepare c method p query body = inr req
        /\ HTTP c req = inr resp
        /\ 200 <= StatusCode resp < 300
        /\ (out = true -> forall e, decode (RespBody resp) <> DecodeFailed e).
Proof.
  unfold Do. split.
  - destruct (the_prepare c method p query body) as [e|req] eqn:Hprep;
      [discriminate|].
    destruct (HTTP c req) as [e|resp] eqn:Hhttp; [discriminate|].
    unfold receive.
    destruct ((StatusCode resp <? 200) || (StatusCode resp >=? 300)) eqn:Hcode.
    { destruct (unmarshal _) as [ae|]; [|discriminate].
      destruct (negb _ || negb _); discriminate. }
    apply orb_false_iff in Hcode as [H1 H2].
    intros Hok. exists req, resp.
    split; [reflexivity|]. split; [exact Hhttp|]. split; [lia|].
    intros -> e He. rewrite He in Hok. discriminate.
  - intros (req & resp & -> & -> & Hcode & Hdec). unfold receive.
    assert ((StatusCode resp <? 200) || (StatusCode resp >=? 300) = false) as ->.
    { apply orb_false_iff. split; lia. }
    destruct out; [|reflexivity].
    destruct (decode (RespBody resp)) as [|e|v] eqn:He; try reflexivity.
    now destruct (Hdec eq_refl e).
Qed.

(** [Do] returns a response exactly when the transport gave one, and then
    it is that response, also beside an error. *)
Theorem Do_response_iff (c : Client) (method p : string)
    (query : gmap string string) (body : option B) (out : bool)
    (resp : Response) :
  fst (fst (the_Do c method p query body out)) = Some resp
  <-> exists req : Request,
        the_prepare c method p query body = inr req
        /\ HTTP c req = inr resp.
Proof.
  unfold Do. split.
  - destruct (the_prepare c method p query body) as [e|req] eqn:Hprep;
      [discriminate|].
    destruct (HTTP c req) as [e|resp'] eqn:Hhttp; [discriminate|].
    intros Hresp. exists req. split; [reflexivity|].
    rewrite Hhttp. f_equal.
    unfold receive in Hresp.
    destruct ((StatusCode resp' <? 200) || (StatusCode resp' >=? 300)).
    + destruct (unmarshal _) as [ae|]; [destruct (negb _ || negb _)|];
        cbn in Hresp; congruence.
    + destruct out; [destruct (decode _)|]; cbn in Hresp; congruence.
  - intros (req & -> & ->). unfold receive.
    destruct ((StatusCode resp <? 200) || (StatusCode resp >=? 300)).
    + destruct (unmarshal _) as [ae|]; [destruct (negb _ || negb _)|];
        reflexivity.
    + destruct out; [destruct (decode _)|]; reflexivity.
Qed.

(** Without a base URL nothing is sent: [Do] and each of its five helpers
    return no response and the error [client BaseURL not configured],
    whatever the transport and the arguments. *)
Theorem Do_without_BaseURL (c : Client) (method p : string)
    (query : gmap string string) (body : option B) (out : bool) :
  BaseURL c = None ->
  let failed : option Response * option error * option O :=
    (None, Some (errorString "client BaseURL not configured"), None) in
  the_Do c method p query body out = failed
  /\ Get buildURL json_Encode NewRequest unmarshal decode c p query out = failed
  /\ Post buildURL json_Encode NewRequest unmarshal decode c p body out = failed
  /\ Put buildURL json_Encode NewRequest unmarshal decode c p body out = failed
  /\ Patch buildURL json_Encode NewRequest unmarshal decode c p body out = failed
  /\ Delete buildURL json_Encode NewRequest unmarshal decode c p = failed.
Proof.
  intros Hbase failed. unfold Get, Post, Put, Patch, Delete, Do, prepare.
  rewrite Hbase. now repeat split.
Qed.

(** What [Do] puts on a request, for a client without authenticator or
    with a bearer token: [Accept] is [application/json]; [Content-Type] is
    [application/json] when there is a body, and as [NewRequest] left it when
    there is none; [User-Agent] is the one of the client when that is not
    empty. *)
Theorem prepare_headers (c : Client) (method p : string)
    (query : gmap string string) (body : option B) (req : Request) :
  Auth c = None \/ (exists a : BearerTokenAuth, Auth c = Some (bearer a)) ->
  the_prepare c method p query body = inr req ->
  Header_Get (Header req) "Accept" = "application/json"
  /\ (body <> None -> Header_Get (Header req) "Content-Type" = "application/json")
  /\ (UserAgent c <> "" -> Header_Get (Header req) "User-Agent" = UserAgent c)
  /\ (body = None ->
      exists (u : string) (r0 : Request),
        NewRequest method u None = inr r0
        /\ Header req !! "Content-Type" = Header r0 !! "Content-Type"
        /\ Body req = Body r0).
Proof.
  intros Hauth. unfold prepare.
  destruct (BaseURL c); [|discriminate].
  destruct (buildURL _ _ _) as [e|u]; [discriminate|].
  destruct (match body with None => _ | Some _ => _ end) as [e|reqBody] eqn:Hbody;
    [discriminate|].
  destruct (NewRequest method u reqBody) as [e|r0] eqn:Hnew; [discriminate|].
  set (r1 := match body with
             | Some _ => set_header r0 "Content-Type" "application/json"
             | None => r0
             end).
  set (r2 := set_header r1 "Accept" "application/json").
  set (r3 := if (UserAgent c =? "")%string then r2
             else set_header r2 "User-Agent" (UserAgent c)).
  assert (Hfinal : forall k : string,
             k <> "Authorization" ->
             forall r : Request,
               match Auth c with
               | None => inr r3
               | Some a => match Apply a r3 with
                           | (_, Some err) => inl err
                           | (req', None) => inr req'
                           end
               end = inr r ->
               Header r !! k = Header r3 !! k /\ Body r = Body r3).
  { intros k Hk r. destruct Hauth as [-> | [a ->]].
    - now intros [= <-].
    - cbn [Apply bearer]. unfold BearerTokenAuth_Apply.
      destruct (Token a =? "")%string; intros [= <-]; [now split|].
      cbn [set_header Header Body]. unfold Header_Set.
      now rewrite lookup_insert_ne by congruence. }
  intros Hreq.
  assert (Hget : forall k : string, k <> "Authorization" ->
                 Header_Get (Header req) k = Header_Get (Header r3) k).
  { intros k Hk. unfold Header_Get. now rewrite (proj1 (Hfinal k Hk req Hreq)). }
  assert (Hr3 : forall k : string, k <> "User-Agent" ->
                Header r3 !! k = Header r2 !! k).
  { intros k Hk. unfold r3. destruct (UserAgent c =? "")%string; [reflexivity|].
    cbn [set_header Header]. unfold Header_Set.
    now rewrite lookup_insert_ne by congruence. }
  split; [|split; [|split]].
  - rewrite Hget by discriminate. unfold Header_Get.
    rewrite Hr3 by discriminate. unfold r2. cbn [set_header Header].
    unfold Header_Set. now rewrite lookup_insert_eq.
  - intros Hsome. rewrite Hget by discriminate. unfold Header_Get.
    rewrite Hr3 by discriminate. unfold r2. cbn [set_header Header].
    unfold Header_Set. rewrite lookup_insert_ne by discriminate.
    unfold r1. destruct body; [|contradiction].
    cbn [set_header Header]. unfold Header_Set. now rewrite lookup_insert_eq.
  - intros Hua. rewrite Hget by discriminate. unfold r3.
    apply String.eqb_neq in Hua. rewrite Hua. apply Header_Get_Set.
  - intros ->. injection Hbody as <-. exists u, r0. split; [exact Hnew|].
    destruct (Hfinal "Content-Type" ltac:(discriminate) req Hreq) as [-> ->].
    rewrite Hr3 by discriminate. unfold r3, r2, r1.
    cbn [set_header Header Body]. unfold Header_Set.
    rewrite lookup_insert_ne by discriminate. split; [reflexivity|].
    now destruct (UserAgent c =? "")%string.
Qed.

End DoOutcome.

Lemma Do_without_BaseURL_witness :
  Delete (B:=string) (O:=unit) doubles.plainURL doubles.plainEncode
    doubles.plainRequest doubles.unauthorizedPayload doubles.noDecode
    (set_BaseURL doubles.rejecting None) "/x"
  = (None, Some (errorString "client BaseURL not configured"), None).
Proof.
  apply (Do_without_BaseURL doubles.plainURL doubles.plainEncode
           doubles.plainRequest doubles.unauthorizedPayload doubles.noDecode
           (set_BaseURL doubles.rejecting None) "DELETE" "/x" ∅ None false
           eq_refl).
Defined.

Lemma prepare_headers_witness :
  Header_Get
    (Header
       (set_header
          (set_header
             (set_header
                (set_header
                   {| Method := "POST"; URL := "https://capella.test/x";
                      Header := ∅; Body := Some "{}" |}
                   "Content-Type" "application/json")
                "Accept" "application/json")
             "User-Agent" "test")
          "Authorization" "Bearer abc123"))
    "Content-Type" = "application/json".
Proof.
  refine (proj1 (proj2 (prepare_headers doubles.plainURL doubles.plainEncode
                          doubles.plainRequest doubles.rejecting "POST" "/x" ∅
                          (Some "{}") _ _ eq_refl)) _).
  - right. now exists {| Token := "abc123" |}.
  - discriminate.
Defined.

(** ** Paths and statements of package [indexes] *)

Lemma status_path_text (PE : string -> string) (r : IndexBuildStatusRequest) :
  status_path PE r
  = ("v4/organizations/" +:+ OrganizationId r +:+ "/projects/" +:+ ProjectId r
       +:+ "/clusters/" +:+ ClusterId r +:+ "/queryService/indexBuildStatus/")
      +:+ PE (IndexName r).
Proof.
  unfold status_path. cbv [fmt.Sprintf fmt.parse fmt.run]. cbn [fmt.operands].
  rewrite append_nil_r. rewrite !append_assoc. reflexivity.
Qed.

(** With an escaping that keeps different names apart, the status of two
    different indexes of one cluster is never asked at the same path. *)
Theorem status_path_separates_indexes (PE : string -> string)
    (r1 r2 : IndexBuildStatusRequest) :
  (forall x y : string, PE x = PE y -> x = y) ->
  OrganizationId r1 = OrganizationId r2 ->
  ProjectId r1 = ProjectId r2 ->
  ClusterId r1 = ClusterId r2 ->
  status_path PE r1 = status_path PE r2 ->
  IndexName r1 = IndexName r2.
Proof.
  intros Hinj Horg Hproj Hcl. rewrite !status_path_text, Horg, Hproj, Hcl.
  intros Heq. apply Hinj. exact (String.app_inj _ _ _ Heq).
Qed.

Lemma status_path_separates_indexes_witness :
  status_path doubles.noEscape
    (statusReq (config_data (doubles.config StringNull StringNull []))
       "_default" "_default" "idx1")
  <> status_path doubles.noEscape
       (statusReq (config_data (doubles.config StringNull StringNull []))
          "_default" "_default" "idx2").
Proof.
  intros Heq.
  assert (H : "idx1" = "idx2"); [|discriminate H].
  apply (status_path_separates_indexes doubles.noEscape
           (statusReq (config_data (doubles.config StringNull StringNull []))
              "_default" "_default" "idx1")
           (statusReq (config_data (doubles.config StringNull StringNull []))
              "_default" "_default" "idx2"));
    [intros x y Hxy; exact Hxy | reflexivity | reflexivity | reflexivity
    | exact Heq].
Defined.

(** The build statement does not quote the index names: a name that
    contains a comma and a space gives the statement of the two names it
    falls into. *)
Theorem build_definition_not_quoted (org proj cl b s c a1 a2 : string)
    (rest : list string) :
  build_definition
    {| bOrganizationId := org; bProjectId := proj; bClusterId := cl;
       bBucket := b; IndexNames := (a1 +:+ ", " +:+ a2) :: rest;
       bScope := s; bCollection := c |}
  = build_definition
      {| bOrganizationId := org; bProjectId := proj; bClusterId := cl;
         bBucket := b; IndexNames := a1 :: a2 :: rest;
         bScope := s; bCollection := c |}.
Proof.
  unfold build_definition. cbn [bBucket bScope bCollection IndexNames].
  now rewrite !strings_Join_concat, concat_absorb.
Qed.

(** ** More on the invocation *)

Section Batch.
Variable PE : string -> string.
Variable bi : Service.
Variable polls : nat.

(** An iteration that goes on leaves the batch as it was or adds its own
    index at the end. *)
Lemma iteration_next (data : BuildIndexActionModel) (scope collection : string)
    (acc : list string) (n : string) (st : State) (b : list string) (st' : State) :
  iteration PE bi polls data scope collection acc n st = (Next b, st') ->
  b = acc \/ b = acc ++ [n].
Proof.
  unfold iteration, call.
  destruct (GetIndexBuildStatus _ _ _ _) as [[res [e|]] h]; [discriminate|].
  destruct res as [r|]; [|discriminate].
  destruct (Status r =? "Scheduled for Creation")%string.
  - destruct (WaitForScheduledIndexCreation _ _ _ _ _) as [[res' [e|]] h'];
      [discriminate|].
    destruct res' as [r'|]; [|discriminate].
    destruct (Status r' =? "Created")%string; intros [= <- _]; auto.
  - destruct (Status r =? "Created")%string; intros [= <- _]; auto.
Qed.

Lemma loop_batch (data : BuildIndexActionModel) (scope collection : string)
    (names : list string) :
  forall (acc : list string) (st : State) (b : list string) (st' : State),
    loop PE bi polls data scope collection names acc st = (Next b, st') ->
    exists b' : list string, b = acc ++ b' /\ sublist b' names.
Proof.
  induction names as [|n names IH]; intros acc st b st' Hloop.
  - cbn in Hloop. injection Hloop as <- _. exists []. now rewrite app_nil_r.
  - cbn [loop] in Hloop.
    destruct (iteration _ _ _ _ _ _ _ _ _) as [[acc1| |] st1] eqn:Hit;
      try discriminate.
    apply IH in Hloop as (b' & -> & Hsub).
    apply iteration_next in Hit as [-> | ->].
    + exists b'. split; [reflexivity|]. now apply sublist_cons.
    + exists (n :: b'). rewrite <- app_assoc. split; [reflexivity|].
      now apply sublist_skip.
Qed.

(** An invocation makes at most one build call, whatever the service
    answers and whatever the configuration: if it makes one, the batch is
    not empty, and its names are requested names in the order of the
    request. *)
Theorem Invoke_at_most_one_build_call (req : InvokeRequest) :
  build_calls (events (snd (Invoke PE bi polls req start))) = []
  \/ exists (b : list string) (reply : BuildReply),
       b <> []
       /\ sublist b (config_names req)
       /\ build_calls (events (snd (Invoke PE bi polls req start)))
          = [build_call req b reply].
Proof.
  destruct (HasError (config_diagnostics req)) eqn:Hcfg.
  { left. destruct (Invoke_not_configured PE bi polls req) as (ds & -> & _);
      [|reflexivity]. unfold config_ok. now rewrite Hcfg. }
  rewrite (Invoke_configured PE bi polls req Hcfg).
  destruct (loop PE bi polls (config_data req) (config_scope req)
              (config_collection req) (config_names req) [] (configured req))
    as [f st1] eqn:Hloop.
  pose proof (loop_build_calls PE bi polls req _ _ _ _ _ Hloop) as Hcalls.
  cbn [configured events] in Hcalls.
  destruct f as [b| |]; [|now left..].
  destruct b as [|n b].
  - left. rewrite submit_nil. cbn [snd emit events].
    now rewrite build_calls_app, Hcalls.
  - right. apply loop_batch in Hloop as (b' & Hb & Hsub). cbn [app] in Hb.
    subst b'.
    destruct (submit_batch bi (config_data req) (config_scope req)
                (config_collection req) (n :: b) st1)
      as (reply & st' & -> & Hst'); [discriminate|].
    exists (n :: b), reply. split; [discriminate|]. split; [exact Hsub|].
    cbn [snd]. destruct Hst' as [[-> _] | ->]; cbn [emit events];
      now rewrite build_calls_app, Hcalls.
Qed.

(** When reading the configuration or the index names gives an error,
    the invocation returns at once: no status query, no build call, no
    progress message. *)
Theorem Invoke_config_error_does_nothing (req : InvokeRequest) :
  HasError (config_diagnostics req) = true ->
  fst (Invoke PE bi polls req start) = Return
  /\ events (snd (Invoke PE bi polls req start)) = []
  /\ HasError (Diagnostics_ (snd (Invoke PE bi polls req start))) = true.
Proof.
  intros Hcfg.
  destruct (Invoke_not_configured PE bi polls req) as (ds & -> & Hds).
  - unfold config_ok. now rewrite Hcfg.
  - now repeat split.
Qed.

(** A build call that fails ends the invocation with the error
    [Build Deferred Indexes Failed], whose detail carries the error; the
    build call is the last event: the final message is not sent. *)
Theorem Invoke_build_fails (req : InvokeRequest) (b : list string) (st1 : State)
    (res : option IndexBuildResponse) (e : error) :
  config_ok req ->
  b <> [] ->
  loop PE bi polls (config_data req) (config_scope req) (config_collection req)
       (config_names req) [] (configured req) = (Next b, st1) ->
  on_Post bi
    (events st1 ++ [EvProgress ("The following indexes need built: ["
                                  +:+ String.concat " " b +:+ "]")])
    (build_path (config_buildReq req b))
    (build_definition (config_buildReq req b)) = (res, Some e) ->
  Invoke PE bi polls req start
  = (Return,
     {| events :=
          events st1
            ++ [EvProgress ("The following indexes need built: ["
                              +:+ String.concat " " b +:+ "]");
                build_call req b (res, Some e)];
        Diagnostics_ :=
          config_diagnostics req
            ++ [{| severity := SeverityError;
                   Summary := "Build Deferred Indexes Failed";
                   Detail_ := "Cannot build deferred indexes.  Error: "
                                +:+ Error e +:+ LF |}] |}).
Proof.
  intros Hok Hb Hloop Hpost.
  destruct (loop_events PE bi polls _ _ _ _ _ _ _ _ Hloop) as (_ & _ & _ & Hdiag).
  cbn in Hdiag.
  rewrite (Invoke_configured PE bi polls req Hok), Hloop.
  unfold submit. destruct b as [|n b]; [contradiction|]. cbn [length Nat.eqb].
  rewrite Sprintf_need_built.
  unfold call, BuildDeferredIndexes, SendProgress. cbn [events Diagnostics_].
  unfold config_buildReq in Hpost. rewrite Hpost.
  unfold Diagnostics_AddError. cbn [events Diagnostics_].
  rewrite Hdiag, AddError_fresh by exact Hok.
  rewrite <- app_assoc. reflexivity.
Qed.

(** The answer to a build call is not looked at: when the call does not
    fail, the invocation sends the final message and adds no diagnostic,
    whatever the answer holds, an error text included. *)
Theorem Invoke_build_answer_ignored (req : InvokeRequest) (b : list string)
    (st1 : State) (res : option IndexBuildResponse) :
  config_ok req ->
  b <> [] ->
  loop PE bi polls (config_data req) (config_scope req) (config_collection req)
       (config_names req) [] (configured req) = (Next b, st1) ->
  on_Post bi
    (events st1 ++ [EvProgress ("The following indexes need built: ["
                                  +:+ String.concat " " b +:+ "]")])
    (build_path (config_buildReq req b))
    (build_definition (config_buildReq req b)) = (res, None) ->
  Invoke PE bi polls req start
  = (Return,
     {| events :=
          events st1
            ++ [EvProgress ("The following indexes need built: ["
                              +:+ String.concat " " b +:+ "]");
                build_call req b (res, None);
                EvProgress
                  "finished action invocation, Indexes will be built in the background."];
        Diagnostics_ := config_diagnostics req |}).
Proof.
  intros Hok Hb Hloop Hpost.
  destruct (loop_events PE bi polls _ _ _ _ _ _ _ _ Hloop) as (_ & _ & _ & Hdiag).
  cbn in Hdiag.
  rewrite (Invoke_configured PE bi polls req Hok), Hloop.
  unfold submit. destruct b as [|n b]; [contradiction|]. cbn [length Nat.eqb].
  rewrite Sprintf_need_built.
  unfold call, BuildDeferredIndexes, SendProgress. cbn [events Diagnostics_].
  unfold config_buildReq in Hpost. rewrite Hpost. cbn [events Diagnostics_].
  rewrite Hdiag, <- !app_assoc. reflexivity.
Qed.

End Batch.

Lemma Invoke_config_error_does_nothing_witness :
  events (snd (Invoke doubles.noEscape (doubles.always "Created") 3
                 doubles2.bad_names start)) = [].
Proof.
  exact (proj1 (proj2 (Invoke_config_error_does_nothing doubles.noEscape
                         (doubles.always "Created") 3 doubles2.bad_names
                         eq_refl))).
Defined.

Lemma Invoke_build_fails_witness :
  HasError
    (Diagnostics_
       (snd (Invoke doubles.noEscape doubles2.build_refused 3
               (doubles.config StringNull StringNull ["idx1"]) start))) = true.
Proof.
  rewrite (Invoke_build_fails doubles.noEscape doubles2.build_refused 3
             (doubles.config StringNull StringNull ["idx1"]) ["idx1"]
             (snd (loop doubles.noEscape doubles2.build_refused 3
                     (config_data (doubles.config StringNull StringNull []))
                     "_default" "_default" ["idx1"] []
                     (configured (doubles.config StringNull StringNull []))))
             None (errorString "build refused"));
    [reflexivity | reflexivity | discriminate | reflexivity | reflexivity].
Defined.

Lemma Invoke_build_answer_ignored_witness :
  Diagnostics_
    (snd (Invoke doubles.noEscape doubles2.build_complains 3
            (doubles.config StringNull StringNull ["idx1"]) start)) = [].
Proof.
  rewrite (Invoke_build_answer_ignored doubles.noEscape doubles2.build_complains 3
             (doubles.config StringNull StringNull ["idx1"]) ["idx1"]
             (snd (loop doubles.noEscape doubles2.build_complains 3
                     (config_data (doubles.config StringNull StringNull []))
                     "_default" "_default" ["idx1"] []
                     (configured (doubles.config StringNull StringNull []))))
             (Some {| Error_ := Some "index not found" |}));
    [reflexivity | reflexivity | discriminate | reflexivity | reflexivity].
Defined.

(** ** From the client to the action *)

Section Silent.
Variable PE : string -> string.
Variable polls : nat.
Variable buildURL : string -> string -> gmap string string -> error + string.
Variable json_Encode : IndexDefinition -> error + string.
Variable NewRequest : string -> string -> option string -> error + Request.
Variable unmarshal : string -> option apiError.
Variable decode_status : string -> Decoded (option IndexBuildStatusResponse).
Variable decode_build : string -> Decoded (option IndexBuildResponse).

(** A status answer with a code in 200..299 and an empty body (or the JSON
    [null]) is no error for [Do] and leaves the result nil; [Invoke] reads
    the status of that nil result: the invocation panics on its first index,
    after the one query, with no progress message and no diagnostic. *)
Theorem Invoke_panics_on_empty_answer (c : Client) (req : InvokeRequest)
    (n : string) (rest : list string) (r : Request) (resp : Response) :
  config_ok req ->
  config_names req = n :: rest ->
  prepare buildURL json_Encode NewRequest c "GET"
    (status_path PE (statusReq (config_data req) (config_scope req)
                       (config_collection req) n))
    (status_params (statusReq (config_data req) (config_scope req)
                      (config_collection req) n))
    None = inr r ->
  HTTP c r = inr resp ->
  200 <= StatusCode resp < 300 ->
  decode_status (RespBody resp) = DecodeEOF
  \/ decode_status (RespBody resp) = DecodeOk None ->
  Invoke PE
    (of_client buildURL json_Encode NewRequest unmarshal decode_status
       decode_build c)
    polls req start
  = (Panic,
     {| events :=
          [poll PE (statusReq (config_data req) (config_scope req)
                      (config_collection req) n) (None, None)];
        Diagnostics_ := config_diagnostics req |}).
Proof.
  intros Hok Hnames Hprep Hhttp Hcode Hdecode.
  rewrite (Invoke_configured PE _ polls req Hok), Hnames. cbn [loop].
  rewrite (iteration_missing PE _ polls (config_data req) (config_scope req)
             (config_collection req) [] n (configured req)); [reflexivity|].
  cbn [of_client on_Get]. unfold client.Get, Do. rewrite Hprep, Hhttp.
  unfold receive.
  assert ((StatusCode resp <? 200) || (StatusCode resp >=? 300) = false) as ->.
  { apply orb_false_iff. split; lia. }
  destruct Hdecode as [-> | ->]; reflexivity.
Qed.

End Silent.

Lemma Invoke_panics_on_empty_answer_witness :
  fst (Invoke doubles.noEscape
         (of_client doubles.plainURL doubles2.encodeDefinition
            doubles.plainRequest doubles.unauthorizedPayload
            doubles2.decodeStatus doubles2.decodeBuild doubles2.silent)
         3 (doubles.config StringNull StringNull ["idx1"; "idx2"]) start)
  = Panic.
Proof.
  rewrite (Invoke_panics_on_empty_answer doubles.noEscape 3 doubles.plainURL
             doubles2.encodeDefinition doubles.plainRequest
             doubles.unauthorizedPayload doubles2.decodeStatus
             doubles2.decodeBuild doubles2.silent
             (doubles.config StringNull StringNull ["idx1"; "idx2"])
             "idx1" ["idx2"]
             (set_header
                {| Method := "GET";
                   URL := "https://capella.test"
                            +:+ "v4/organizations/org/projects/proj/clusters/cluster/queryService/indexBuildStatus/idx1";
                   Header := ∅; Body := None |}
                "Accept" "application/json")
             {| StatusCode := 200; RespBody := "" |});
    [reflexivity | reflexivity | reflexivity | reflexivity | reflexivity
    | cbn [StatusCode]; lia | now left].
Defined.

(** ** The provider *)

Lemma has_error_app (ds ds' : list provider.AttributeDiagnostic) :
  provider.has_error (ds ++ ds') = provider.has_error ds || provider.has_error ds'.
Proof. unfold provider.has_error. rewrite map_app. apply HasError_app. Qed.

Lemma has_error_elem (d : provider.AttributeDiagnostic)
    (ds : list provider.AttributeDiagnostic) :
  d ∈ ds -> is_error (provider.diagnostic d) = true -> provider.has_error ds = true.
Proof.
  intros Hin Hd. unfold provider.has_error.
  apply (HasError_elem (provider.diagnostic d)); [|exact Hd].
  apply list_elem_of_In, in_map, list_elem_of_In, Hin.
Qed.

Lemma append_elem_old (d : provider.AttributeDiagnostic)
    (ds new : list provider.AttributeDiagnostic) :
  d ∈ ds -> d ∈ provider.append ds new.
Proof.
  unfold provider.append. revert ds.
  induction new as [|d' new IH]; intros ds Hin; [exact Hin|].
  cbn [fold_left]. apply IH. destruct (decide (d' ∈ ds)); [exact Hin|].
  apply elem_of_app. now left.
Qed.

Lemma AddAttributeError_elem (ds : list provider.AttributeDiagnostic)
    (root summary detail : string) :
  {| provider.attribute := Some root;
     provider.diagnostic := {| severity := SeverityError; Summary := summary;
                               Detail_ := detail |} |}
    ∈ provider.AddAttributeError ds root summary detail.
Proof.
  unfold provider.AddAttributeError, provider.append. cbn [fold_left].
  destruct (decide (_ ∈ ds)) as [Hin|Hin]; [exact Hin|].
  apply elem_of_app. right. apply list_elem_of_singleton. reflexivity.
Qed.

Lemma has_error_AddAttributeError (ds : list provider.AttributeDiagnostic)
    (root summary detail : string) :
  provider.has_error (provider.AddAttributeError ds root summary detail) = true.
Proof.
  eapply has_error_elem; [apply AddAttributeError_elem | reflexivity].
Qed.

Section Provider.
Variable url_Parse : string -> error + string.
Variable defaultHTTP : Request -> error + Response.
Variable env : gmap string string.

Abbreviation configure req :=
  (provider.Configure url_Parse defaultHTTP env req provider.fresh).

(** [Configure] hands out a client exactly when it reports no error, and
    then the same client for data sources, resources and actions. *)
Theorem Configure_client_iff_no_error (req : provider.ConfigureRequest) :
  (is_Some (provider.ActionData (configure req))
   <-> provider.has_error (provider.Diagnostics_ (configure req)) = false)
  /\ provider.DataSourceData (configure req) = provider.ActionData (configure req)
  /\ provider.ResourceData (configure req) = provider.ActionData (configure req).
Proof.
  unfold provider.Configure. destruct (provider.Config_Get req) as [diags config].
  cbn [provider.with_diagnostics provider.Diagnostics_ provider.fresh].
  set (ds0 := provider.append [] (map provider.plain diags)).
  assert (Hnone : forall ds, provider.has_error ds = true ->
            (is_Some (@None Client) <-> provider.has_error ds = false)).
  { intros ds ->. split; [intros [? [=]] | discriminate]. }
  destruct (provider.has_error ds0) eqn:H0.
  { cbn. split; [now apply Hnone | now split]. }
  destruct (provider.IsUnknown _) eqn:Hunknown.
  { cbn [provider.with_diagnostics provider.Diagnostics_].
    rewrite has_error_AddAttributeError. cbn.
    split; [apply Hnone, has_error_AddAttributeError | now split]. }
  cbn [provider.with_diagnostics provider.Diagnostics_]. rewrite H0.
  destruct (ValueString (provider.Host _) =? "")%string eqn:Hhost;
    destruct (ValueString (provider.AuthenticationToken _) =? "")%string eqn:Htoken;
    cbn [provider.with_diagnostics provider.Diagnostics_].
  - assert (Herr : provider.has_error
              (provider.AddAttributeError
                 (provider.AddAttributeError ds0 provider.capellaPublicAPIHostField
                    "Missing Capella Public API Host" provider.missing_host_detail)
                 provider.capellaAuthenticationTokenField
                 "Missing Capella Authentication Token"
                 provider.missing_token_detail) = true)
      by apply has_error_AddAttributeError.
    rewrite Herr. cbn. split; [now apply Hnone | now split].
  - rewrite has_error_AddAttributeError. cbn.
    split; [apply Hnone, has_error_AddAttributeError | now split].
  - rewrite has_error_AddAttributeError. cbn.
    split; [apply Hnone, has_error_AddAttributeError | now split].
  - rewrite H0.
    cbn [provider.ActionData provider.Diagnostics_ provider.DataSourceData
           provider.ResourceData].
    rewrite H0. split; [|now split].
    split; [intros _; reflexivity | intros _; now eexists].
Qed.

(** The shape of the client that [Configure] hands out. *)
Lemma Configure_client_shape (req : provider.ConfigureRequest) (c : Client) :
  provider.ActionData (configure req) = Some c ->
  exists h t : string,
    h <> "" /\ t <> ""
    /\ provider.Host (provider.resolve env (snd (provider.Config_Get req)))
       = StringValue h
    /\ provider.AuthenticationToken
         (provider.resolve env (snd (provider.Config_Get req)))
       = StringValue t
    /\ Auth c = Some (bearer {| Token := t |})
    /\ HTTP c = defaultHTTP
    /\ BaseURL c
       = match url_Parse (if String.prefix "http" h then h else "https://" +:+ h) with
         | inr u => Some u
         | inl _ => BaseURL (defaultClient url_Parse defaultHTTP)
         end.
Proof.
  unfold provider.Configure. destruct (provider.Config_Get req) as [diags config].
  cbn [provider.with_diagnostics provider.Diagnostics_ provider.fresh snd].
  set (ds0 := provider.append [] (map provider.plain diags)).
  generalize (provider.resolve env config). intros rc.
  destruct (provider.has_error ds0) eqn:H0; [discriminate|].
  destruct (provider.IsUnknown _) eqn:Hunknown.
  { cbn [provider.with_diagnostics provider.Diagnostics_].
    rewrite has_error_AddAttributeError. discriminate. }
  cbn [provider.with_diagnostics provider.Diagnostics_]. rewrite H0.
  destruct (String.eqb_spec (ValueString (provider.Host rc)) "") as [Hhost|Hhost];
    destruct (String.eqb_spec (ValueString (provider.AuthenticationToken rc)) "")
      as [Htoken|Htoken];
    cbn [provider.with_diagnostics provider.Diagnostics_];
    rewrite ?has_error_AddAttributeError; try discriminate.
  rewrite H0. cbn [provider.ActionData]. intros [= <-].
  destruct rc as [[| |h] [| |t]]; cbn [provider.Host provider.AuthenticationToken
                                       ValueString] in *;
    try (now destruct Hhost); try (now destruct Htoken).
  exists h, t.
  split; [exact Hhost|]. split; [exact Htoken|].
  split; [reflexivity|]. split; [reflexivity|].
  unfold NewClient. cbn [fold_left]. unfold WithAuthenticator, WithBaseURL.
  apply String.eqb_neq in Hhost. rewrite Hhost.
  destruct (url_Parse _); now repeat split.
Qed.

(** Where host and token come from.  A value known in the configuration
    is used as it is, and then the environment is not consulted.  A null
    host stands for the value of [CAPELLA_HOST], also an empty one, and for
    the default host when that variable is not set; a null token stands for
    the value of [CAPELLA_AUTHENTICATION_TOKEN], and for the empty token when
    that variable is not set. *)
Theorem Configure_precedence (env' : gmap string string) (diags : Diagnostics)
    (host token : String_) (h t : string) (resp : provider.ConfigureResponse) :
  let run env host token :=
    provider.Configure url_Parse defaultHTTP env
      {| provider.Config_Get :=
           (diags, {| provider.Host := host;
                      provider.AuthenticationToken := token |}) |} resp in
  run env (StringValue h) (StringValue t) = run env' (StringValue h) (StringValue t)
  /\ run env StringNull token
     = run env (StringValue (match env !! "CAPELLA_HOST" with
                             | Some envHost => envHost
                             | None => provider.defaultAPIHostURL
                             end)) token
  /\ run env host StringNull
     = run env host
         (StringValue (match env !! "CAPELLA_AUTHENTICATION_TOKEN" with
                       | Some envToken => envToken
                       | None => ""
                       end)).
Proof.
  cbv zeta. split; [reflexivity|].
  unfold provider.Configure, provider.resolve, provider.Getenv.
  cbn [provider.Config_Get provider.Host provider.AuthenticationToken IsNull].
  split.
  - now destruct (env !! "CAPELLA_HOST").
  - now destruct (env !! "CAPELLA_AUTHENTICATION_TOKEN").
Qed.

(** A host or a token that is empty once the environment is consulted is
    reported under its attribute, and no client is made; when both are
    empty both are reported. *)
Theorem Configure_missing (req : provider.ConfigureRequest) :
  provider.has_error (map provider.plain (fst (provider.Config_Get req))) = false ->
  provider.IsUnknown
    (provider.AuthenticationToken
       (provider.resolve env (snd (provider.Config_Get req)))) = false ->
  (ValueString (provider.Host (provider.resolve env (snd (provider.Config_Get req))))
   = "" ->
   {| provider.attribute := Some "host";
      provider.diagnostic :=
        {| severity := SeverityError;
           Summary := "Missing Capella Public API Host";
           Detail_ := provider.missing_host_detail |} |}
     ∈ provider.Diagnostics_ (configure req)
   /\ provider.ActionData (configure req) = None)
  /\ (ValueString
        (provider.AuthenticationToken
           (provider.resolve env (snd (provider.Config_Get req)))) = "" ->
      {| provider.attribute := Some "authentication_token";
         provider.diagnostic :=
           {| severity := SeverityError;
              Summary := "Missing Capella Authentication Token";
              Detail_ := provider.missing_token_detail |} |}
        ∈ provider.Diagnostics_ (configure req)
      /\ provider.ActionData (configure req) = None).
Proof.
  unfold provider.Configure. destruct (provider.Config_Get req) as [diags config].
  cbn [provider.with_diagnostics provider.Diagnostics_ provider.fresh fst snd].
  intros Hdiags Hknown.
  set (ds0 := provider.append [] (map provider.plain diags)).
  assert (H0 : provider.has_error ds0 = false).
  { unfold ds0, provider.has_error, provider.append.
    assert (Hgen : forall new acc,
               HasError (map provider.diagnostic acc) = false ->
               HasError (map provider.diagnostic new) = false ->
               HasError (map provider.diagnostic
                           (fold_left (fun acc d => if decide (d ∈ acc) then acc
                                                    else acc ++ [d]) new acc))
               = false).
    { induction new as [|d new IH]; intros acc Hacc Hnew; [exact Hacc|].
      cbn [fold_left]. cbn [map HasError existsb] in Hnew.
      apply orb_false_iff in Hnew as [Hd Hnew]. apply IH; [|exact Hnew].
      destruct (decide (d ∈ acc)); [exact Hacc|].
      rewrite map_app, HasError_app, Hacc. cbn. now rewrite Hd. }
    now apply Hgen. }
  rewrite H0, Hknown. cbn [provider.with_diagnostics provider.Diagnostics_].
  rewrite H0.
  split.
  - intros Hhost. rewrite Hhost. cbn [String.eqb].
    assert (Hin : {| provider.attribute := Some "host";
                     provider.diagnostic :=
                       {| severity := SeverityError;
                          Summary := "Missing Capella Public API Host";
                          Detail_ := provider.missing_host_detail |} |}
                    ∈ provider.AddAttributeError ds0 provider.capellaPublicAPIHostField
                        "Missing Capella Public API Host"
                        provider.missing_host_detail)
      by apply AddAttributeError_elem.
    destruct (ValueString (provider.AuthenticationToken _) =? "")%string;
      cbn [provider.with_diagnostics provider.Diagnostics_].
    + assert (Herr : provider.has_error
                (provider.AddAttributeError
                   (provider.AddAttributeError ds0 provider.capellaPublicAPIHostField
                      "Missing Capella Public API Host" provider.missing_host_detail)
                   provider.capellaAuthenticationTokenField
                   "Missing Capella Authentication Token"
                   provider.missing_token_detail) = true)
        by apply has_error_AddAttributeError.
      rewrite Herr. cbn [provider.Diagnostics_ provider.ActionData].
      split; [|reflexivity]. now apply append_elem_old.
    + rewrite has_error_AddAttributeError.
      cbn [provider.Diagnostics_ provider.ActionData]. now split.
  - intros Htoken. rewrite Htoken. cbn [String.eqb].
    destruct (ValueString (provider.Host _) =? "")%string;
      cbn [provider.with_diagnostics provider.Diagnostics_].
    + assert (Herr : provider.has_error
                (provider.AddAttributeError
                   (provider.AddAttributeError ds0 provider.capellaPublicAPIHostField
                      "Missing Capella Public API Host" provider.missing_host_detail)
                   provider.capellaAuthenticationTokenField
                   "Missing Capella Authentication Token"
                   provider.missing_token_detail) = true)
        by apply has_error_AddAttributeError.
      rewrite Herr. cbn [provider.Diagnostics_ provider.ActionData].
      split; [|reflexivity]. apply AddAttributeError_elem.
    + rewrite has_error_AddAttributeError.
      cbn [provider.Diagnostics_ provider.ActionData]. split; [|reflexivity].
      apply AddAttributeError_elem.
Qed.

(** The client that [Configure] hands out: its host and its token are
    known and not empty; it authenticates with that token as a bearer; its
    base URL is the one parsed from the host (with [https://] in front of a
    host without [http]), and the default one, without a word, when the host
    does not parse. *)
Theorem Configure_client (req : provider.ConfigureRequest) (c : Client) :
  provider.ActionData (configure req) = Some c ->
  exists h t : string,
    h <> "" /\ t <> ""
    /\ provider.Host (provider.resolve env (snd (provider.Config_Get req)))
       = StringValue h
    /\ provider.AuthenticationToken
         (provider.resolve env (snd (provider.Config_Get req)))
       = StringValue t
    /\ Auth c = Some (bearer {| Token := t |})
    /\ HTTP c = defaultHTTP
    /\ BaseURL c
       = match url_Parse (if String.prefix "http" h then h else "https://" +:+ h) with
         | inr u => Some u
         | inl _ => BaseURL (defaultClient url_Parse defaultHTTP)
         end.
Proof. apply Configure_client_shape. Qed.

(** From the provider to a request.  The action takes the client that the
    provider hands out, with no diagnostic, and every request that this
    client prepares carries the token of the provider as its bearer token.
    Provider data that is nil leaves the action as it is, without client and
    without diagnostic; provider data of another type leaves it as it is,
    with an error. *)
Theorem Configure_to_request (req : provider.ConfigureRequest) (c : Client)
    (bi : action_setup.BuildIndexAction) (ds : Diagnostics) :
  provider.ActionData (configure req) = Some c ->
  action_setup.Configure bi (action_setup.ClientData c) ds
  = ({| action_setup.Client_ := Some c |}, ds)
  /\ (exists t : string,
         t <> ""
         /\ provider.AuthenticationToken
              (provider.resolve env (snd (provider.Config_Get req)))
            = StringValue t
         /\ forall (B : Type) buildURL (json_Encode : B -> error + string)
                   NewRequest (method p : string) (query : gmap string string)
                   (body : option B) (r : Request),
              prepare buildURL json_Encode NewRequest c method p query body
              = inr r ->
              Header_Get (Header r) "Authorization" = "Bearer " +:+ t)
  /\ action_setup.Configure bi action_setup.NoData ds = (bi, ds)
  /\ (forall typeName : string,
         fst (action_setup.Configure bi (action_setup.OtherData typeName) ds) = bi
         /\ HasError
              (snd (action_setup.Configure bi (action_setup.OtherData typeName) ds))
            = true).
Proof.
  intros Hc. split; [reflexivity|]. split; [|split; [reflexivity|]].
  - destruct (Configure_client_shape req c Hc)
      as (h & t & _ & Ht & _ & Htoken & Hauth & _).
    exists t. split; [exact Ht|]. split; [exact Htoken|].
    intros B buildURL json_Encode NewRequest method p query body r Hprep.
    exact (prepare_bearer_header buildURL json_Encode NewRequest c method p
             query body t r Hauth Ht Hprep).
  - intros typeName. split; [reflexivity|]. apply HasError_AddError.
Qed.

End Provider.

Lemma Configure_client_witness :
  exists h t : string,
    h <> "" /\ t <> ""
    /\ provider.Host
         (provider.resolve doubles2.env_token
            (snd (provider.Config_Get
                    (doubles2.provider_config StringNull StringNull))))
       = StringValue h
    /\ provider.AuthenticationToken
         (provider.resolve doubles2.env_token
            (snd (provider.Config_Get
                    (doubles2.provider_config StringNull StringNull))))
       = StringValue t
    /\ Auth (NewClient doubles2.parseAll doubles2.refusing
               [WithBaseURL doubles2.parseAll provider.defaultAPIHostURL;
                WithAuthenticator (bearer {| Token := "env-token" |})])
       = Some (bearer {| Token := t |})
    /\ HTTP (NewClient doubles2.parseAll doubles2.refusing
               [WithBaseURL doubles2.parseAll provider.defaultAPIHostURL;
                WithAuthenticator (bearer {| Token := "env-token" |})])
       = doubles2.refusing
    /\ BaseURL (NewClient doubles2.parseAll doubles2.refusing
                  [WithBaseURL doubles2.parseAll provider.defaultAPIHostURL;
                   WithAuthenticator (bearer {| Token := "env-token" |})])
       = match doubles2.parseAll
                 (if String.prefix "http" h then h else "https://" +:+ h) with
         | inr u => Some u
         | inl _ => BaseURL (defaultClient doubles2.parseAll doubles2.refusing)
         end.
Proof.
  exact (Configure_client doubles2.parseAll doubles2.refusing doubles2.env_token
           (doubles2.provider_config StringNull StringNull)
           (NewClient doubles2.parseAll doubles2.refusing
              [WithBaseURL doubles2.parseAll provider.defaultAPIHostURL;
               WithAuthenticator (bearer {| Token := "env-token" |})])
           eq_refl).
Defined.

(** [CAPELLA_HOST] set to the empty string: the host is missing, the
    default is not used. *)
Lemma Configure_missing_witness :
  provider.ActionData
    (provider.Configure doubles2.parseAll doubles2.refusing doubles2.env_empty_host
       (doubles2.provider_config StringNull StringNull) provider.fresh)
  = None.
Proof.
  destruct (Configure_missing doubles2.parseAll doubles2.refusing
              doubles2.env_empty_host
              (doubles2.provider_config StringNull StringNull)
              eq_refl eq_refl) as [Hhost _].
  exact (proj2 (Hhost eq_refl)).
Defined.

Lemma Configure_to_request_witness :
  action_setup.Configure action_setup.NewBuildIndexAction
    (action_setup.ClientData
       (NewClient doubles2.parseAll doubles2.refusing
          [WithBaseURL doubles2.parseAll provider.defaultAPIHostURL;
           WithAuthenticator (bearer {| Token := "env-token" |})]))
    []
  = ({| action_setup.Client_ :=
          Some (NewClient doubles2.parseAll doubles2.refusing
                  [WithBaseURL doubles2.parseAll provider.defaultAPIHostURL;
                   WithAuthenticator (bearer {| Token := "env-token" |})]) |},
     []).
Proof.
  exact (proj1 (Configure_to_request doubles2.parseAll doubles2.refusing
                  doubles2.env_token
                  (doubles2.provider_config StringNull StringNull)
                  (NewClient doubles2.parseAll doubles2.refusing
                     [WithBaseURL doubles2.parseAll provider.defaultAPIHostURL;
                      WithAuthenticator (bearer {| Token := "env-token" |})])
                  action_setup.NewBuildIndexAction [] eq_refl)).
Defined.
